(** * trade_manager: the trade lifecycle engine

    A shallow embedding of [trade_manager.py]: the expiration rule
    ([is_trade_expired]), the SQLite-backed trade store
    ([insert_trade], [update_trade_status], [delete_trade], the
    [fetch_*] queries and [get_trades]), the monitor loop
    ([trade_monitor_loop]) and its singleton start
    ([start_trade_monitor]).

    Conventions.
    - A Python [str] is a [string]; each character is read as the code
      point of the same number (0..255).
    - A civil date-time is a number of microseconds since
      0001-01-01T00:00:00 (proleptic Gregorian), as [Z].
    - Code that reads the clock, talks to SQLite, prints or sleeps lives
      in the monad [M]: a state monad over [World] with Python
      exceptions, run against an environment [Env] that supplies the
      clock readings, the time-zone offsets and the storage faults. *)

From Stdlib Require Import ZArith QArith List String Ascii Bool Lia Arith.
From Stdlib Require Import Sorting.Sorted Sorting.Permutation.
Import ListNotations.

Local Open Scope string_scope.
Local Open Scope Z_scope.

(** ** Python values and exceptions *)

Inductive exn : Type :=
| ValueError (msg : string)
| OverflowError (msg : string)
| TypeError (msg : string)
| KeyError (msg : string)
| OperationalError (msg : string)
| HTTPException (status_code : Z) (detail : string).

Inductive result (A : Type) : Type :=
| Ok (a : A)
| Raise (e : exn).
Arguments Ok {A} a.
Arguments Raise {A} e.

Definition exn_str (e : exn) : string :=
  match e with
  | ValueError m | OverflowError m | TypeError m | KeyError m
  | OperationalError m | HTTPException _ m => m
  end.

(** The values a JSON body or a SQLite row can hold. [REAL] columns are
    modelled by rationals. *)
Inductive pyval : Type :=
| VNone
| VBool (b : bool)
| VInt (n : Z)
| VReal (q : Q)
| VStr (s : string).

(** A [dict] with string keys, in insertion order. *)
Definition dict := list (string * pyval).

Fixpoint dict_get (d : dict) (k : string) : option pyval :=
  match d with
  | [] => None
  | (k', v) :: d' => if String.eqb k' k then Some v else dict_get d' k
  end.

(** [d.get(k, default)] *)
Definition dict_get_default (d : dict) (k : string) (default : pyval) : pyval :=
  match dict_get d k with
  | Some v => v
  | None => default
  end.

Definition keys (d : dict) : list string := map fst d.

(** [dict(zip(ks, row))] for [ks] without repetition. *)
Fixpoint zip {A B} (xs : list A) (ys : list B) : list (A * B) :=
  match xs, ys with
  | x :: xs', y :: ys' => (x, y) :: zip xs' ys'
  | _, _ => []
  end.

(** Python truth value. *)
Definition truthy (v : pyval) : bool :=
  match v with
  | VNone => false
  | VBool b => b
  | VInt n => negb (n =? 0)
  | VReal q => negb (Qeq_bool q 0)
  | VStr s => negb (String.eqb s "")
  end.

(** ** Numbers: SQLite integers and binary64 *)

Definition INT64_MIN : Z := - 2 ^ 63.
Definition INT64_MAX : Z := 2 ^ 63 - 1.

(** The integers SQLite can hold. *)
Definition fits_int64 (n : Z) : bool := (INT64_MIN <=? n) && (n <=? INT64_MAX).

Module Float64.

(** [n / d] rounded to the nearest integer, ties to even, for [d > 0]. *)
Definition round_half_even (n d : Z) : Z :=
  let q := n / d in
  let r := n mod d in
  if 2 * r <? d then q
  else if d <? 2 * r then q + 1
  else if Z.even q then q else q + 1.

(** The binary64 nearest to [n / d], ties to even, for [n >= 0] and
    [d > 0]; [None] when it would be beyond the largest one. *)
Definition nearest (n d : Z) : option Q :=
  if n =? 0 then Some 0%Q
  else
    let shift := Z.log2 n - Z.log2 d in
    let above := if 0 <=? shift then d * 2 ^ shift <=? n
                 else d <=? n * 2 ^ (- shift) in
    let fl := if above then shift else shift - 1 in
    let e := Z.max (fl - 52) (-1074) in
    let m := if 0 <=? e then round_half_even n (d * 2 ^ e)
             else round_half_even (n * 2 ^ (- e)) d in
    if 0 <=? e
    then if 2 ^ 1024 <=? m * 2 ^ e then None
         else Some (inject_Z (m * 2 ^ e))
    else Some (Qred (m # Z.to_pos (2 ^ (- e)))).

(** Python's [x / d] for a number [x], an [int] or a finite [float],
    and an [int] [d > 0]: the binary64 nearest to the exact quotient,
    [None] where Python raises [OverflowError]. *)
Definition div (x : Q) (d : Z) : option Q :=
  let n := Qnum x in
  let p := Zpos (Qden x) * d in
  if 0 <=? n then nearest n p
  else match nearest (- n) p with
       | Some q => Some (Qopp q)
       | None => None
       end.

End Float64.

(** ** The regular expression [BTC\s+(\d{1,2})(am|pm)], [re.IGNORECASE] *)

Module Re.

Definition code (c : ascii) : N := N_of_ascii c.

(** [\s] on code points below 256. *)
Definition is_space (c : ascii) : bool :=
  let n := code c in
  ((9 <=? n) && (n <=? 13) || (28 <=? n) && (n <=? 32)
   || (n =? 133) || (n =? 160))%N.

(** [\d] on code points below 256. *)
Definition is_digit (c : ascii) : bool :=
  let n := code c in ((48 <=? n) && (n <=? 57))%N.

Definition digit_val (c : ascii) : Z := Z.of_N (code c) - 48.

(** ASCII lower-casing; under [re.IGNORECASE] a pattern letter matches a
    character with the same lower case. *)
Definition lower (c : ascii) : ascii :=
  let n := code c in
  if ((65 <=? n) && (n <=? 90))%N then ascii_of_N (n + 32) else c.

Definition ieq (p c : ascii) : bool := Ascii.eqb (lower p) (lower c).

(** Match the literal [lit] at the head of [s], ignoring case; the rest
    of [s] on success. *)
Fixpoint lit_ci (lit s : string) : option string :=
  match lit, s with
  | EmptyString, _ => Some s
  | String p lit', String c s' => if ieq p c then lit_ci lit' s' else None
  | String _ _, EmptyString => None
  end.

Inductive ampm : Type := AM | PM.

(** [(am|pm)]: first alternative first. *)
Definition alt_ampm (s : string) : option ampm :=
  match lit_ci "am" s with
  | Some _ => Some AM
  | None => match lit_ci "pm" s with
            | Some _ => Some PM
            | None => None
            end
  end.

(** [(\d{1,2})(am|pm)]: greedy, two digits before one. The groups are
    returned as [int(group(1))] and the lower-cased suffix. *)
Definition digits_ampm (s : string) : option (Z * ampm) :=
  match s with
  | String d1 s1 =>
      if is_digit d1 then
        let one := match alt_ampm s1 with
                   | Some ap => Some (digit_val d1, ap)
                   | None => None
                   end in
        match s1 with
        | String d2 s2 =>
            if is_digit d2 then
              match alt_ampm s2 with
              | Some ap => Some (10 * digit_val d1 + digit_val d2, ap)
              | None => one
              end
            else one
        | EmptyString => one
        end
      else None
  | EmptyString => None
  end.

(** The rest of [\s+] once one blank has been consumed: greedy, more
    blanks before the continuation. *)
Fixpoint spaces_then (s : string) : option (Z * ampm) :=
  match s with
  | String c s' =>
      if is_space c then
        match spaces_then s' with
        | Some r => Some r
        | None => digits_ampm s
        end
      else digits_ampm s
  | EmptyString => digits_ampm s
  end.

(** The whole pattern anchored at the head of [s]. *)
Definition match_here (s : string) : option (Z * ampm) :=
  match lit_ci "BTC" s with
  | Some (String c s') => if is_space c then spaces_then s' else None
  | _ => None
  end.

(** [re.search]: the leftmost position with a match. *)
Fixpoint search (s : string) : option (Z * ampm) :=
  match match_here s with
  | Some r => Some r
  | None => match s with
            | String _ s' => search s'
            | EmptyString => None
            end
  end.

End Re.

(** ** The [datetime] values used by the program *)

Module Dt.

Definition US_PER_SECOND : Z := 1000000.
Definition US_PER_HOUR : Z := 3600 * US_PER_SECOND.
Definition US_PER_DAY : Z := 24 * US_PER_HOUR.

(** [date.max.toordinal() = 3652059]: days run from 0 (0001-01-01) to
    [MAX_DAY] (9999-12-31). *)
Definition MAX_DAY : Z := 3652058.

(** A wall-clock reading: microseconds since 0001-01-01T00:00:00. *)
Definition datetime := Z.

Definition day_of (t : datetime) : Z := t / US_PER_DAY.
Definition time_of (t : datetime) : Z := t mod US_PER_DAY.

Definition in_range (t : datetime) : bool :=
  (0 <=? t) && (day_of t <=? MAX_DAY).

(** [t.replace(hour=h, minute=0, second=0, microsecond=0)] *)
Definition replace_hour (t : datetime) (h : Z) : result datetime :=
  if (0 <=? h) && (h <=? 23)
  then Ok (day_of t * US_PER_DAY + h * US_PER_HOUR)
  else Raise (ValueError "hour must be in 0..23").

(** [t + timedelta(days=n)] *)
Definition add_days (t : datetime) (n : Z) : result datetime :=
  let t' := t + n * US_PER_DAY in
  if in_range t' then Ok t'
  else Raise (OverflowError "date value out of range").

(** [(a - b).total_seconds() > s] for whole [s]: the difference is a
    whole number of microseconds, which the float quotient by 10**6
    orders as the integers do at these magnitudes. *)
Definition gap_exceeds_seconds (a b : datetime) (s : Z) : bool :=
  s * US_PER_SECOND <? a - b.

End Dt.

(** ** Text forms: [str(int)] and [datetime.isoformat()] *)

Module Fmt.

Definition digit (n : Z) : ascii := ascii_of_N (48 + Z.to_N (n mod 10)).

(** The last [k] decimal digits of [n], zero-padded. *)
Fixpoint pad (k : nat) (n : Z) : string :=
  match k with
  | O => EmptyString
  | S k' => (pad k' (n / 10) ++ String (digit n) EmptyString)%string
  end.

(** Decimal digits of a positive number, most significant first. *)
Fixpoint digits_fuel (fuel : nat) (n : Z) (acc : string) : string :=
  match fuel with
  | O => acc
  | S f => if n <? 10 then String (digit n) acc
           else digits_fuel f (n / 10) (String (digit n) acc)
  end.

(** [str(n)] for an [int]. *)
Definition str_of_Z (n : Z) : string :=
  if n <? 0
  then String "-"%char (digits_fuel (Z.to_nat (Z.log2 (- n)) + 1) (- n) EmptyString)
  else digits_fuel (Z.to_nat (Z.log2 n) + 1) n EmptyString.

(** Year, month and day of day number [d] (0 is 0001-01-01). *)
Definition civil_of_day (d : Z) : Z * Z * Z :=
  let z := d + 306 in
  let era := z / 146097 in
  let doe := z - era * 146097 in
  let yoe := (doe - doe / 1460 + doe / 36524 - doe / 146096) / 365 in
  let doy := doe - (365 * yoe + yoe / 4 - yoe / 100) in
  let mp := (5 * doy + 2) / 153 in
  let dd := doy - (153 * mp + 2) / 5 + 1 in
  let m := if mp <? 10 then mp + 3 else mp - 9 in
  let y := yoe + era * 400 + (if m <=? 2 then 1 else 0) in
  (y, m, dd).

(** [t.isoformat()] for a naive [t]: the fraction is printed only when
    it is not zero. *)
Definition isoformat (t : Dt.datetime) : string :=
  let '(y, m, d) := civil_of_day (Dt.day_of t) in
  let us := Dt.time_of t in
  let s := us / Dt.US_PER_SECOND in
  let f := us mod Dt.US_PER_SECOND in
  (pad 4 y ++ "-" ++ pad 2 m ++ "-" ++ pad 2 d ++ "T"
   ++ pad 2 (s / 3600) ++ ":" ++ pad 2 (s / 60 mod 60) ++ ":" ++ pad 2 (s mod 60)
   ++ (if (f =? 0)%Z then "" else "." ++ pad 6 f))%string.

(** The UTC offset suffix, for an offset of [off] whole seconds. *)
Definition format_offset (off : Z) : string :=
  let a := Z.abs off in
  ((if (off <? 0)%Z then "-" else "+")
   ++ pad 2 (a / 3600) ++ ":" ++ pad 2 (a / 60 mod 60)
   ++ (if (a mod 60 =? 0)%Z then "" else ":" ++ pad 2 (a mod 60)))%string.

(** [t.isoformat()] for an aware [t] with wall clock [wall] and UTC
    offset [off]. *)
Definition isoformat_aware (wall : Dt.datetime) (off : Z) : string :=
  (isoformat wall ++ format_offset off)%string.

End Fmt.

(** ** The [trades] table *)

Record Row : Type := mkRow {
  id : Z;
  date : string;
  time : string;
  strike : string;
  side : string;
  price : Q;
  position : Z;
  status : string;
  closed_at : option string;
  contract : option string;
}.

(** The table, in rowid order, and the [AUTOINCREMENT] counter kept in
    [sqlite_sequence]. *)
Record Store : Type := mkStore {
  rows : list Row;
  seq : Z;
}.

Definition opt_text (o : option string) : pyval :=
  match o with
  | Some s => VStr s
  | None => VNone
  end.

(** The fields of a trade as [add_trade] passes them to [insert_trade]:
    [nt_status] and [nt_contract] are [None] when the key is missing. *)
Record NewTrade : Type := mkNewTrade {
  nt_date : string;
  nt_time : string;
  nt_strike : string;
  nt_side : string;
  nt_price : Q;
  nt_position : Z;
  nt_status : option string;
  nt_contract : option string;
}.

Module Sql.

(** [ORDER BY ... DESC]: insertion sort, [ge a b] meaning [a] is not
    below [b]. *)
Section Order.
Context {A : Type} (ge : A -> A -> bool).

Fixpoint insert_desc (x : A) (l : list A) : list A :=
  match l with
  | [] => [x]
  | y :: l' => if ge x y then x :: l else y :: insert_desc x l'
  end.

Fixpoint order_desc (l : list A) : list A :=
  match l with
  | [] => []
  | x :: l' => insert_desc x (order_desc l')
  end.
End Order.

(** Text comparison under the [BINARY] collation. *)
Definition text_ge (a b : string) : bool := String.leb b a.

Definition is_status (s : string) (r : Row) : bool := String.eqb (status r) s.

(** [SELECT id, date, time, strike, side, price, position, status,
    contract] *)
Definition cols9 (r : Row) : list pyval :=
  [VInt (id r); VStr (date r); VStr (time r); VStr (strike r); VStr (side r);
   VReal (price r); VInt (position r); VStr (status r); opt_text (contract r)].

(** [SELECT id, date, time, strike, side, price, position, status,
    closed_at, contract] *)
Definition cols10 (r : Row) : list pyval :=
  [VInt (id r); VStr (date r); VStr (time r); VStr (strike r); VStr (side r);
   VReal (price r); VInt (position r); VStr (status r); opt_text (closed_at r);
   opt_text (contract r)].

(** [... FROM trades WHERE status = 'open'] *)
Definition select_open (st : Store) : list Row :=
  filter (is_status "open") (rows st).

(** [... FROM trades ORDER BY id DESC] *)
Definition select_all (st : Store) : list Row :=
  order_desc (fun a b => id b <=? id a) (rows st).

(** [closed_at >= ?]: false on a [NULL] [closed_at]. *)
Definition closed_at_ge (cutoff : string) (r : Row) : bool :=
  match closed_at r with
  | Some c => text_ge c cutoff
  | None => false
  end.

(** [ORDER BY closed_at DESC], [NULL] lowest. *)
Definition closed_at_order (a b : Row) : bool :=
  match closed_at a, closed_at b with
  | _, None => true
  | None, Some _ => false
  | Some x, Some y => text_ge x y
  end.

(** [... WHERE status = 'closed' AND closed_at >= ? ORDER BY closed_at
    DESC] *)
Definition select_recent_closed (cutoff : string) (st : Store) : list Row :=
  order_desc closed_at_order
    (filter (fun r => is_status "closed" r && closed_at_ge cutoff r) (rows st)).

(** [INSERT INTO trades (date, time, strike, side, price, position,
    status, contract) VALUES (...)]: the new id is one above the
    counter, [closed_at] takes its default. *)
Definition insert (d t k s : string) (p : Q) (pos : Z) (stat : string)
    (c : option string) (st : Store) : Store * Z :=
  let n := seq st + 1 in
  (mkStore (rows st ++ [mkRow n d t k s p pos stat None c]) n, n).

(** The same [INSERT] with SQLite's refusal to go past the largest
    id. *)
Definition insert_checked (d t k s : string) (p : Q) (pos : Z) (stat : string)
    (c : option string) (st : Store) : result (Store * Z) :=
  if fits_int64 (seq st + 1) then Ok (insert d t k s p pos stat c st)
  else Raise (OperationalError "database or disk is full").

Definition set_status (stat : string) (r : Row) : Row :=
  mkRow (id r) (date r) (time r) (strike r) (side r) (price r) (position r)
        stat (closed_at r) (contract r).

Definition set_status_closed_at (stat : string) (ca : string) (r : Row) : Row :=
  mkRow (id r) (date r) (time r) (strike r) (side r) (price r) (position r)
        stat (Some ca) (contract r).

Definition where_id (i : Z) (f : Row -> Row) (r : Row) : Row :=
  if id r =? i then f r else r.

(** [UPDATE trades SET status = ?, closed_at = ? WHERE id = ?] *)
Definition update_status_closed_at (stat ca : string) (i : Z) (st : Store) : Store :=
  mkStore (map (where_id i (set_status_closed_at stat ca)) (rows st)) (seq st).

(** [UPDATE trades SET status = ? WHERE id = ?] *)
Definition update_status (stat : string) (i : Z) (st : Store) : Store :=
  mkStore (map (where_id i (set_status stat)) (rows st)) (seq st).

(** [DELETE FROM trades WHERE id = ?] *)
Definition delete (i : Z) (st : Store) : Store :=
  mkStore (filter (fun r => negb (id r =? i)) (rows st)) (seq st).

End Sql.

(** ** Effects *)

(** What the program is run against: the successive readings of the
    system clock (UTC), the UTC offset of America/New_York in seconds
    at a UTC reading, and the SQLite statements that fail, by their
    number in execution order. *)
Record Env : Type := mkEnv {
  clock : nat -> Dt.datetime;
  ny_utcoffset : Dt.datetime -> Z;
  sqlite_error : nat -> option string;
}.

Inductive event : Type :=
| Print (line : string)
| Sleep (seconds : Z).

(** The table, the number of clock readings and of statements so far,
    and what was printed and slept, oldest first. *)
Record World : Type := mkWorld {
  db : Store;
  reads : nat;
  stmts : nat;
  trace : list event;
}.

Definition M (A : Type) : Type := Env -> World -> result A * World.

Definition ret {A} (a : A) : M A := fun _ w => (Ok a, w).

Definition bind {A B} (m : M A) (f : A -> M B) : M B :=
  fun e w =>
    match m e w with
    | (Ok a, w') => f a e w'
    | (Raise x, w') => (Raise x, w')
    end.

Definition raise {A} (x : exn) : M A := fun _ w => (Raise x, w).

Definition lift {A} (r : result A) : M A := fun _ w => (r, w).

(** [try: m except Exception as e: h e] *)
Definition try_except {A} (m : M A) (h : exn -> M A) : M A :=
  fun e w =>
    match m e w with
    | (Ok a, w') => (Ok a, w')
    | (Raise x, w') => h x e w'
    end.

Notation "x <- m ;; k" := (bind m (fun x => k))
  (at level 61, m at next level, right associativity).
Notation "m ;;; k" := (bind m (fun _ => k))
  (at level 61, right associativity).

(** [for x in xs: body x] *)
Fixpoint for_each {A} (xs : list A) (body : A -> M unit) : M unit :=
  match xs with
  | [] => ret tt
  | x :: xs' => body x ;;; for_each xs' body
  end.

(** [datetime.utcnow()] *)
Definition utcnow : M Dt.datetime :=
  fun e w => (Ok (clock e (reads w)),
              mkWorld (db w) (S (reads w)) (stmts w) (trace w)).

(** The wall clock of America/New_York at the UTC reading [u]. *)
Definition ny_wall (e : Env) (u : Dt.datetime) : Dt.datetime :=
  u + ny_utcoffset e u * Dt.US_PER_SECOND.

(** [datetime.now(ZoneInfo('America/New_York'))], as its wall clock. *)
Definition now_new_york : M Dt.datetime :=
  fun e w => (Ok (ny_wall e (clock e (reads w))),
              mkWorld (db w) (S (reads w)) (stmts w) (trace w)).

(** [utc_now.replace(tzinfo=UTC).astimezone(ZoneInfo("America/New_York"))
    .isoformat()] *)
Definition est_isoformat (utc_now : Dt.datetime) : M string :=
  fun e w => (Ok (Fmt.isoformat_aware (ny_wall e utc_now) (ny_utcoffset e utc_now)), w).

(** [cursor.execute(stmt)]: the statement takes effect, unless SQLite
    fails on it, which leaves the table as it was. *)
Definition execute {A} (stmt : Store -> Store * A) : M A :=
  fun e w =>
    match sqlite_error e (stmts w) with
    | Some msg => (Raise (OperationalError msg),
                   mkWorld (db w) (reads w) (S (stmts w)) (trace w))
    | None => let '(st, a) := stmt (db w) in
              (Ok a, mkWorld st (reads w) (S (stmts w)) (trace w))
    end.

(** [cursor.execute(stmt)] for a statement the table itself can
    refuse. *)
Definition execute_checked {A} (stmt : Store -> result (Store * A)) : M A :=
  fun e w =>
    match sqlite_error e (stmts w) with
    | Some msg => (Raise (OperationalError msg),
                   mkWorld (db w) (reads w) (S (stmts w)) (trace w))
    | None => match stmt (db w) with
              | Ok (st, a) => (Ok a, mkWorld st (reads w) (S (stmts w)) (trace w))
              | Raise x => (Raise x, mkWorld (db w) (reads w) (S (stmts w)) (trace w))
              end
    end.

(** Binding a Python [int] to a [?]: [sqlite3] refuses one outside 64
    bits, before the statement runs; the statement is then not among
    those executed. *)
Definition bind_int (n : Z) : M unit :=
  if fits_int64 n then ret tt
  else raise (OverflowError "Python int too large to convert to SQLite INTEGER").

Definition print (line : string) : M unit :=
  fun _ w => (Ok tt, mkWorld (db w) (reads w) (stmts w) (trace w ++ [Print line])).

(** [time.sleep(s)] *)
Definition sleep (s : Z) : M unit :=
  fun _ w => (Ok tt, mkWorld (db w) (reads w) (stmts w) (trace w ++ [Sleep s])).

(** [d[k]] used as a row id. *)
Definition subscript_id (d : dict) (k : string) : M Z :=
  match dict_get d k with
  | Some (VInt n) => ret n
  | Some _ => raise (TypeError "id is not an integer")
  | None => raise (KeyError k)
  end.

(** ** [is_trade_expired] *)

(** 12-hour to 24-hour. *)
Definition to_24h (hour : Z) (ampm : Re.ampm) : Z :=
  match ampm with
  | Re.PM => if negb (hour =? 12) then hour + 12 else hour
  | Re.AM => if hour =? 12 then 0 else hour
  end.

Definition is_trade_expired (trade : dict) : M bool :=
  let contract := dict_get_default trade "contract" (VStr "") in
  if negb (truthy contract) then ret false
  else
    match contract with
    | VStr label =>
        match Re.search label with
        | None => ret false
        | Some (hour, ampm) =>
            let hour := to_24h hour ampm in
            now <- now_new_york ;;
            expiration <- lift (Dt.replace_hour now hour) ;;
            expiration <-
              (if (expiration <? now) && Dt.gap_exceeds_seconds now expiration 3600
               then lift (Dt.add_days expiration 1)
               else ret expiration) ;;
            ret (expiration <=? now)
        end
    | _ => raise (TypeError "expected string or bytes-like object")
    end.

(** ** Database helper functions *)

Definition open_keys : list string :=
  ["id"; "date"; "time"; "strike"; "side"; "price"; "position"; "status";
   "contract"].

Definition all_keys : list string :=
  ["id"; "date"; "time"; "strike"; "side"; "price"; "position"; "status";
   "closed_at"; "contract"].

Definition fetch_open_trades : M (list dict) :=
  rows <- execute (fun st => (st, map Sql.cols9 (Sql.select_open st))) ;;
  ret (map (fun row => zip open_keys row) rows).

Definition fetch_all_trades : M (list dict) :=
  rows <- execute (fun st => (st, map Sql.cols10 (Sql.select_all st))) ;;
  ret (map (fun row => zip all_keys row) rows).

Definition insert_trade (trade : NewTrade) : M Z :=
  price <- lift (match Float64.div (nt_price trade) 100 with
                 | Some q => Ok q
                 | None => Raise (OverflowError
                                    "integer division result too large for a float")
                 end) ;;
  bind_int (nt_position trade) ;;;
  execute_checked
    (Sql.insert_checked (nt_date trade) (nt_time trade) (nt_strike trade)
       (nt_side trade) price (nt_position trade)
       (match nt_status trade with Some s => s | None => "open" end)
       (nt_contract trade)).

Definition update_trade_status (trade_id : Z) (status : string)
    (closed_at : option string) : M unit :=
  if String.eqb status "closed" then
    closed_at <-
      match closed_at with
      | None => utc_now <- utcnow ;; est_isoformat utc_now
      | Some c => ret c
      end ;;
    bind_int trade_id ;;;
    execute (fun st => (Sql.update_status_closed_at status closed_at trade_id st, tt))
  else
    bind_int trade_id ;;;
    execute (fun st => (Sql.update_status status trade_id st, tt)).

Definition delete_trade (trade_id : Z) : M unit :=
  bind_int trade_id ;;;
  execute (fun st => (Sql.delete trade_id st, tt)).

Definition fetch_recent_closed_trades (hours : Z) : M (list dict) :=
  now <- utcnow ;;
  cutoff <- lift (let c := now - hours * Dt.US_PER_HOUR in
                  if Dt.in_range c then Ok c
                  else Raise (OverflowError "date value out of range")) ;;
  let cutoff_iso := Fmt.isoformat cutoff in
  rows <- execute (fun st => (st, map Sql.cols10 (Sql.select_recent_closed cutoff_iso st))) ;;
  ret (map (fun row => zip all_keys row) rows).

(** ** API routes *)

Definition get_trades (status : option string) (recent_hours : option Z)
    : M (list dict) :=
  match status, recent_hours with
  | Some s, rh =>
      if String.eqb s "open" then fetch_open_trades
      else if String.eqb s "closed" && truthy (match rh with Some h => VInt h | None => VNone end)
      then fetch_recent_closed_trades (match rh with Some h => h | None => 0 end)
      else if String.eqb s "closed"
      then ts <- fetch_all_trades ;;
           ret (filter (fun t => match dict_get t "status" with
                                 | Some (VStr v) => String.eqb v "closed"
                                 | _ => false
                                 end) ts)
      else fetch_all_trades
  | None, _ => fetch_all_trades
  end.






(** ** Background trade monitoring thread *)

Definition check_stop_trigger (trade : dict) : bool := false.

(** The body of the [for] loop. *)
Definition check_and_close (trade : dict) : M unit :=
  if check_stop_trigger trade then
    i <- subscript_id trade "id" ;;
    print ("[Trade Monitor] Closing trade id=" ++ Fmt.str_of_Z i
           ++ " due to stop trigger")%string ;;;
    update_trade_status i "closed" None
  else
    expired <- is_trade_expired trade ;;
    if expired : bool then
      i <- subscript_id trade "id" ;;
      print ("[Trade Monitor] Auto-closing trade id=" ++ Fmt.str_of_Z i
             ++ " due to expiration")%string ;;;
      update_trade_status i "closed" None
    else ret tt.

(** The body of the [try] block: one pass over the open trades. *)
Definition monitor_pass : M unit :=
  open_trades <- fetch_open_trades ;;
  for_each open_trades check_and_close.

(** One turn of the [while True] loop. *)
Definition monitor_period : M unit :=
  try_except monitor_pass
    (fun e => print ("[Trade Monitor] Error: " ++ exn_str e)%string) ;;;
  sleep 5.

(** The first [periods] turns of [trade_monitor_loop]. *)
Fixpoint trade_monitor_loop (periods : nat) : M unit :=
  match periods with
  | O => ret tt
  | S n => monitor_period ;;; trade_monitor_loop n
  end.

(** ** The monitor thread *)

(** The threads of the process that matter here: [_monitor_thread]
    holds the [Thread] object last created by [start_trade_monitor],
    [running] lists the threads inside [trade_monitor_loop], and
    [created] counts the [Thread] objects made so far (a thread is
    named by its number). *)
Record Process : Type := mkProcess {
  _monitor_thread : option nat;
  running : list nat;
  created : nat;
}.

Definition is_alive (p : Process) (t : nat) : bool :=
  existsb (Nat.eqb t) (running p).

(** [threading.Thread(target=trade_monitor_loop, daemon=True)] bound to
    [_monitor_thread], then [.start()]. *)
Definition spawn_monitor (p : Process) : Process :=
  let t := created p in
  mkProcess (Some t) (t :: running p) (S t).

Definition start_trade_monitor (p : Process) : Process :=
  match _monitor_thread p with
  | None => spawn_monitor p
  | Some t => if negb (is_alive p t) then spawn_monitor p else p
  end.

(** A monitor thread ends (the loop itself never returns; the thread
    can still be brought down from outside). *)
Definition thread_dies (t : nat) (p : Process) : Process :=
  mkProcess (_monitor_thread p)
            (filter (fun u => negb (Nat.eqb u t)) (running p))
            (created p).

Definition initial_process : Process := mkProcess None [] 0.

(** What can happen to the process, one call or one thread death at a
    time. *)
Inductive reachable : Process -> Prop :=
| reach_initial : reachable initial_process
| reach_start p : reachable p -> reachable (start_trade_monitor p)
| reach_death p t : reachable p -> In t (running p) -> reachable (thread_dies t p).

(** ** Notions used by the statements *)

Definition tick (w : World) : World :=
  mkWorld (db w) (S (reads w)) (stmts w) (trace w).

(** The reading [datetime.now(ZoneInfo('America/New_York'))] returns in
    world [w]. *)
Definition now_in (e : Env) (w : World) : Dt.datetime :=
  ny_wall e (clock e (reads w)).

(** The text [update_trade_status] stamps in world [w]: the current
    instant on the Eastern wall clock, with its UTC offset. *)
Definition eastern_now_iso (e : Env) (w : World) : string :=
  Fmt.isoformat_aware (ny_wall e (clock e (reads w)))
                      (ny_utcoffset e (clock e (reads w))).

(** The rows whose id is not [i], in table order. *)
Definition other_rows (i : Z) (st : Store) : list Row :=
  filter (fun r => negb (id r =? i)) (rows st).

(** The expiration after the day-wrap correction. *)
Definition corrected_expiration (now expiration : Dt.datetime) : Dt.datetime :=
  if (expiration <? now) && (3600 * Dt.US_PER_SECOND <? now - expiration)
  then expiration + Dt.US_PER_DAY
  else expiration.

Fixpoint all_chars (p : ascii -> bool) (s : string) : bool :=
  match s with
  | EmptyString => true
  | String c s' => p c && all_chars p s'
  end.

(** Equality of strings up to case. *)
Fixpoint eq_ci (a b : string) : bool :=
  match a, b with
  | EmptyString, EmptyString => true
  | String x a', String y b' => Re.ieq x y && eq_ci a' b'
  | _, _ => false
  end.

(** Am or pm, whatever the case of the letters. *)
Definition is_ampm (a : string) : Prop :=
  eq_ci "am" a = true \/ eq_ci "pm" a = true.

(** One or two digits. *)
Definition is_hour (ds : string) : Prop :=
  (String.length ds = 1 \/ String.length ds = 2)%nat /\
  all_chars Re.is_digit ds = true.

(** [s] starts with BTC, blanks, an hour and am or pm. *)
Definition btc_hour_prefix (s : string) : Prop :=
  exists btc ws ds a rest : string,
    s = (btc ++ ws ++ ds ++ a ++ rest)%string /\ eq_ci "BTC" btc = true /\
    ws <> "" /\ all_chars Re.is_space ws = true /\ is_hour ds /\ is_ampm a.

(** [label] has a substring of that form. *)
Definition btc_hour_substring (label : string) : Prop :=
  exists pre s : string, label = (pre ++ s)%string /\ btc_hour_prefix s.

(** The first row with id [i]. *)
Definition find_row (i : Z) (st : Store) : option Row :=
  find (fun r => id r =? i) (rows st).

(** A record is well formed when it has a [closed_at] exactly when
    its status is closed. *)
Definition well_formed (r : Row) : Prop :=
  closed_at r <> None <-> status r = "closed".

(** The store operations. *)
Inductive op : Type :=
| Create (t : NewTrade)
| SetStatus (i : Z) (s : string) (closed_at : option string)
| Delete (i : Z).

Definition run_op (o : op) : M unit :=
  match o with
  | Create t => insert_trade t ;;; ret tt
  | SetStatus i s c => update_trade_status i s c
  | Delete i => delete_trade i
  end.

(** The world after a sequence of calls, each of which returns or
    raises on its own. *)
Fixpoint after_ops (os : list op) (e : Env) (w : World) : World :=
  match os with
  | [] => w
  | o :: os' => after_ops os' e (snd (run_op o e w))
  end.

Definition is_closed (r : Row) : bool := String.eqb (status r) "closed".

(** An operation that moves no trade out of closed and creates none
    in it: a create whose status is not closed, a set_status to closed,
    a set_status to another status on an id that no closed trade has,
    a delete. *)
Definition forward (st : Store) (o : op) : bool :=
  match o with
  | Create t => match nt_status t with
                | Some s => negb (String.eqb s "closed")
                | None => true
                end
  | SetStatus i s _ =>
      String.eqb s "closed"
      || negb (existsb (fun r => (id r =? i) && is_closed r) (rows st))
  | Delete _ => true
  end.

Fixpoint all_forward (os : list op) (e : Env) (w : World) : Prop :=
  match os with
  | [] => True
  | o :: os' => forward (db w) o = true /\ all_forward os' e (snd (run_op o e w))
  end.

(** Rows are well formed and no id is above the counter. *)
Definition store_ok (st : Store) : Prop :=
  forall r, In r (rows st) -> well_formed r /\ id r <= seq st.

(** The world once the monitor has reported [x] and slept. *)
Definition reported (x : exn) (w : World) : World :=
  mkWorld (db w) (reads w) (stmts w)
          ((trace w ++ [Print ("[Trade Monitor] Error: " ++ exn_str x)%string])
           ++ [Sleep 5]).

(** The world once the monitor has slept. *)
Definition slept (w : World) : World :=
  mkWorld (db w) (reads w) (stmts w) (trace w ++ [Sleep 5]).

(** The price [insert_trade] stores for a price [p] it accepts. *)
Definition stored_price (p : Q) : Q :=
  match Float64.div p 100 with
  | Some q => q
  | None => 0%Q
  end.

(** The call of operation [o] raises: a number is refused, or SQLite
    fails on the statement. *)
Definition refused (e : Env) (w : World) (o : op) : bool :=
  match o with
  | Create t =>
      match Float64.div (nt_price t) 100 with
      | Some _ => negb (fits_int64 (nt_position t) && fits_int64 (seq (db w) + 1))
      | None => true
      end
  | SetStatus i _ _ | Delete i => negb (fits_int64 i)
  end
  || match sqlite_error e (stmts w) with
     | Some _ => true
     | None => false
     end.

(** The table after one operation. *)
Definition store_after (e : Env) (w : World) (o : op) : Store :=
  if refused e w o then db w
  else
    match o with
    | Create t =>
        fst (Sql.insert (nt_date t) (nt_time t) (nt_strike t) (nt_side t)
               (stored_price (nt_price t)) (nt_position t)
               (match nt_status t with Some s => s | None => "open" end)
               (nt_contract t) (db w))
    | SetStatus i s ca =>
        if String.eqb s "closed"
        then Sql.update_status_closed_at s
               (match ca with Some t => t | None => eastern_now_iso e w end)
               i (db w)
        else Sql.update_status s i (db w)
    | Delete i => Sql.delete i (db w)
    end.

(** Every id of the table is one SQLite can hold. *)
Definition ids_fit (st : Store) : Prop :=
  Forall (fun r => fits_int64 (id r) = true) (rows st).

(** [insert_trade] accepts the numbers of [t] in table [st]: the price
    divided by 100 is a binary64, the position and the next id are
    integers SQLite can hold. *)
Definition accepted (t : NewTrade) (st : Store) : Prop :=
  Float64.div (nt_price t) 100 <> None /\
  fits_int64 (nt_position t) = true /\
  fits_int64 (seq st + 1) = true.

(** Id [i] was issued, and its trade is closed or gone. *)
Definition closed_or_gone (i : Z) (st : Store) : Prop :=
  i <= seq st /\ forall r, find_row i st = Some r -> status r = "closed".

(** No monitor runs but the one held in [_monitor_thread]. *)
Definition at_most_handle (p : Process) : Prop :=
  running p = [] \/ exists t, _monitor_thread p = Some t /\ running p = [t].

(** What [is_trade_expired] computes once the label has matched. *)
Definition expired_at (now : Dt.datetime) (hour : Z) : result bool :=
  match Dt.replace_hour now hour with
  | Ok expiration =>
      if (expiration <? now) && Dt.gap_exceeds_seconds now expiration 3600
      then match Dt.add_days expiration 1 with
           | Ok rolled => Ok (rolled <=? now)
           | Raise x => Raise x
           end
      else Ok (expiration <=? now)
  | Raise x => Raise x
  end.


(** A sample environment: every clock reading is 2026-11-04T12:00:00
    UTC, New York is five hours behind, SQLite never fails. *)
Definition noon_utc : Dt.datetime := 63929390400000000.

Definition sample_env : Env :=
  mkEnv (fun _ => noon_utc) (fun _ => -18000) (fun _ => None).

Definition sample_row (i : Z) (stat : string) (ca c : option string) : Row :=
  mkRow i "2026-11-04" "06:30:00" "105000" "Y" (stored_price 45) 1 stat ca c.

Definition world_of (st : Store) : World := mkWorld st 0 0 [].

Definition empty_world : World := world_of (mkStore [] 0).

Definition sample_trade (stat c : option string) : NewTrade :=
  mkNewTrade "2026-11-04" "06:30:00" "105000" "Y" 45 1 stat c.

(** SQLite fails on the second statement only. *)
Definition locked_once_env : Env :=
  mkEnv (fun _ => noon_utc) (fun _ => -18000)
        (fun n => if Nat.eqb n 1 then Some "database is locked" else None).

(** Two open trades, both due at 7am. *)
Definition two_due : Store :=
  mkStore [sample_row 1 "open" None (Some "BTC 7am");
           sample_row 2 "open" None (Some "BTC 7am")] 2.

(** A single open trade. *)
Definition one_open : Store :=
  mkStore [sample_row 1 "open" None (Some "BTC 7am")] 1.

(** Close trade 1 now, then list the trades closed within [hours]. *)
Definition close_then_list_recent (hours : Z) : M (list dict) :=
  update_trade_status 1 "closed" None ;;; fetch_recent_closed_trades hours.

(** A table with a closed trade, and an open one that still carries a
    [closed_at]. *)
Definition reopened : Store :=
  mkStore [sample_row 1 "closed" (Some "2026-11-03T16:00:02-05:00") (Some "BTC 4pm");
           sample_row 2 "open" (Some "2026-11-03T09:00:01-05:00") (Some "BTC 9am")] 2.

(** A table with an open trade due at 7am and a closed one. *)
Definition two_trades : Store :=
  mkStore [sample_row 1 "open" None (Some "BTC 7am");
           sample_row 2 "closed" (Some "2026-11-03T16:00:02-05:00") (Some "BTC 4pm")] 2.

(** ** Further notions *)

(** Ids are strictly increasing in table order and none is above the
    [AUTOINCREMENT] counter. *)
Definition ids_in_order (st : Store) : Prop :=
  StronglySorted Z.lt (map id (rows st)) /\
  Forall (fun i => i <= seq st) (map id (rows st)).

(** The row [insert_trade] writes for [t] under id [i]. *)
Definition new_row (i : Z) (t : NewTrade) : Row :=
  mkRow i (nt_date t) (nt_time t) (nt_strike t) (nt_side t)
        (stored_price (nt_price t)) (nt_position t)
        (match nt_status t with Some s => s | None => "open" end)
        None (nt_contract t).

(** The records the listings return for a row. *)
Definition open_record (r : Row) : dict := zip open_keys (Sql.cols9 r).
Definition full_record (r : Row) : dict := zip all_keys (Sql.cols10 r).

(** The record's id field is [i]. *)
Definition record_has_id (i : Z) (t : dict) : bool :=
  match dict_get t "id" with
  | Some (VInt n) => n =? i
  | _ => false
  end.

(** One more statement executed. *)
Definition stepped (st : Store) (w : World) : World :=
  mkWorld st (reads w) (S (stmts w)) (trace w).

(** Row [r'] is row [r] as it was, or [r] was open and [r'] is [r]
    closed at some instant. *)
Definition kept_or_closed (r r' : Row) : Prop :=
  r' = r \/
  (status r = "open" /\ exists t, r' = Sql.set_status_closed_at "closed" t r).

(** The seconds slept in a trace. *)
Fixpoint sleep_total (tr : list event) : Z :=
  match tr with
  | [] => 0
  | Sleep s :: tr' => s + sleep_total tr'
  | Print _ :: tr' => sleep_total tr'
  end.

(** The monitor's bookkeeping while it goes through the ids [ids]: each
    row is kept or closed, and the rows still to be visited are
    untouched and open. *)
Definition pending (ids : list Z) (r r' : Row) : Prop :=
  kept_or_closed r r' /\ (In (id r) ids -> r' = r /\ status r = "open").

(** The trade of row [r] is due at [now]: its contract matches and
    the expiration rule says true. *)
Definition due (now : Dt.datetime) (r : Row) : bool :=
  match contract r with
  | Some label =>
      match Re.search label with
      | Some (h, ap) =>
          match expired_at now (to_24h h ap) with
          | Ok b => b
          | Raise _ => false
          end
      | None => false
      end
  | None => false
  end.

(** The expiration rule does not raise on row [r] at [now]. *)
Definition evaluates (now : Dt.datetime) (r : Row) : Prop :=
  forall label h ap,
    contract r = Some label -> Re.search label = Some (h, ap) ->
    exists b, expired_at now (to_24h h ap) = Ok b.

(** What one pass makes of a row when every reading of the clock is
    [now] on the Eastern wall clock and [stamp] is its text. *)
Definition swept (now : Dt.datetime) (stamp : string) (r : Row) : Row :=
  if Sql.is_status "open" r && due now r
  then Sql.set_status_closed_at "closed" stamp r
  else r.

(** The instant of hour [h] on the day of [now]. *)
Definition hour_today (now : Dt.datetime) (h : Z) : Dt.datetime :=
  Dt.day_of now * Dt.US_PER_DAY + h * Dt.US_PER_HOUR.

Ltac unfold_us :=
  unfold Dt.day_of, Dt.time_of, Dt.US_PER_DAY, Dt.US_PER_HOUR,
    Dt.US_PER_SECOND, Dt.MAX_DAY in *.

(** * Properties *)

(** ** The expiration rule *)

Lemma search_some_nonempty label r :
  Re.search label = Some r -> label <> "".
Proof. intros H ->. discriminate H. Qed.

Lemma is_trade_expired_match e w trade label h ap :
  dict_get trade "contract" = Some (VStr label) ->
  Re.search label = Some (h, ap) ->
  is_trade_expired trade e w = (expired_at (now_in e w) (to_24h h ap), tick w).
Proof.
  intros Hc Hs.
  pose proof (search_some_nonempty _ _ Hs) as Hne.
  unfold is_trade_expired, dict_get_default. rewrite Hc.
  destruct label as [|c l]; [congruence|].
  cbn [truthy negb String.eqb]. rewrite Hs.
  unfold bind, now_new_york, lift, ret, expired_at, now_in, tick.
  destruct (Dt.replace_hour _ _) as [x|x]; [|reflexivity].
  destruct ((x <? _) && _); [|reflexivity].
  destruct (Dt.add_days x 1); reflexivity.
Qed.

Lemma replace_hour_ok now h x :
  Dt.replace_hour now h = Ok x ->
  0 <= h <= 23 /\ x = Dt.day_of now * Dt.US_PER_DAY + h * Dt.US_PER_HOUR.
Proof.
  unfold Dt.replace_hour.
  destruct (0 <=? h) eqn:E1; destruct (h <=? 23) eqn:E2; cbn; intros H;
    inversion H; subst. split; [lia | reflexivity].
Qed.

Lemma add_one_day_ok now h x :
  0 <= now -> Dt.day_of now < Dt.MAX_DAY ->
  Dt.replace_hour now h = Ok x ->
  Dt.add_days x 1 = Ok (x + Dt.US_PER_DAY) /\ now < x + Dt.US_PER_DAY.
Proof.
  intros H0 Hd Hr. apply replace_hour_ok in Hr as [Hh ->].
  unfold Dt.add_days, Dt.in_range.
  replace (Dt.day_of now * Dt.US_PER_DAY + h * Dt.US_PER_HOUR + 1 * Dt.US_PER_DAY)
    with (Dt.day_of now * Dt.US_PER_DAY + h * Dt.US_PER_HOUR + Dt.US_PER_DAY) by ring.
  assert (Hday : Dt.day_of (Dt.day_of now * Dt.US_PER_DAY + h * Dt.US_PER_HOUR
                            + Dt.US_PER_DAY) = Dt.day_of now + 1).
  { unfold_us. Z.div_mod_to_equations. lia. }
  rewrite Hday.
  assert (Hnow : now < Dt.day_of now * Dt.US_PER_DAY + h * Dt.US_PER_HOUR + Dt.US_PER_DAY).
  { unfold_us. Z.div_mod_to_equations. lia. }
  split; [|exact Hnow].
  destruct (0 <=? _) eqn:E1; destruct (_ <=? Dt.MAX_DAY) eqn:E2; cbn;
    try reflexivity; unfold_us; Z.div_mod_to_equations; lia.
Qed.

(** C1. For a label matching the pattern and a reading [now] of the
    Eastern wall clock, with [expiration] the reading with its time of
    day replaced by the derived hour: when [expiration] is more than
    3600 seconds before [now] it is advanced by one day and the call
    returns false, [now] being before the advanced expiration; when it
    is before [now] by at most 3600 seconds the call returns true; in
    all cases the call returns whether [now] is at or after the
    corrected expiration. *)
Theorem is_trade_expired_day_wrap :
  forall e w trade label h ap expiration,
    dict_get trade "contract" = Some (VStr label) ->
    Re.search label = Some (h, ap) ->
    0 <= now_in e w -> Dt.day_of (now_in e w) < Dt.MAX_DAY ->
    Dt.replace_hour (now_in e w) (to_24h h ap) = Ok expiration ->
    let now := now_in e w in
    let r := fst (is_trade_expired trade e w) in
    (expiration < now -> 3600 * Dt.US_PER_SECOND < now - expiration ->
       r = Ok false /\ now < expiration + Dt.US_PER_DAY) /\
    (expiration < now -> now - expiration <= 3600 * Dt.US_PER_SECOND ->
       r = Ok true) /\
    r = Ok (corrected_expiration now expiration <=? now).
Proof.
  intros e w trade label h ap x Hc Hs H0 Hd Hr now r.
  assert (Er : r = expired_at now (to_24h h ap)).
  { unfold r. rewrite (is_trade_expired_match _ _ _ _ _ _ Hc Hs). reflexivity. }
  destruct (add_one_day_ok _ _ _ H0 Hd Hr) as [Hadd Hlt]. fold now in Hlt.
  assert (Ec : r = Ok (corrected_expiration now x <=? now)).
  { rewrite Er. unfold expired_at, corrected_expiration, Dt.gap_exceeds_seconds.
    fold now in Hr. rewrite Hr.
    destruct ((x <? now) && _); [rewrite Hadd|]; reflexivity. }
  split; [|split]; [| |exact Ec].
  - intros H1 H2. split; [|exact Hlt].
    rewrite Ec. unfold corrected_expiration.
    apply Z.ltb_lt in H1, H2. rewrite H1, H2. cbn.
    f_equal. apply Z.leb_gt. exact Hlt.
  - intros H1 H2. rewrite Ec. unfold corrected_expiration.
    apply Z.ltb_ge in H2. rewrite H2, andb_false_r.
    f_equal. apply Z.leb_le. lia.
Qed.

Lemma is_trade_expired_day_wrap_witness :
  fst (is_trade_expired [("contract", VStr "BTC 5am")] sample_env empty_world)
  = Ok false.
Proof.
  refine (proj1 (proj1 (is_trade_expired_day_wrap sample_env empty_world
           [("contract", VStr "BTC 5am")] "BTC 5am" 5 Re.AM
           (noon_utc - 7 * Dt.US_PER_HOUR) eq_refl eq_refl _ _ eq_refl) _ _));
    vm_compute; congruence.
Defined.

(** C4. A label whose digits encode 13 with a pm suffix matches the
    pattern, the derived hour is 25, and the time-of-day replacement
    raises [ValueError]: the call does not return a boolean. The same
    happens for 99 with am. *)
Theorem is_trade_expired_raises_on_hour_out_of_range :
  forall e w,
    is_trade_expired [("contract", VStr "BTC 13pm")] e w
      = (Raise (ValueError "hour must be in 0..23"), tick w) /\
    is_trade_expired [("contract", VStr "BTC 99am")] e w
      = (Raise (ValueError "hour must be in 0..23"), tick w).
Proof.
  intros e w. split.
  - rewrite (is_trade_expired_match e w [("contract", VStr "BTC 13pm")] "BTC 13pm" 13 Re.PM eq_refl eq_refl).
    reflexivity.
  - rewrite (is_trade_expired_match e w [("contract", VStr "BTC 99am")] "BTC 99am" 99 Re.AM eq_refl eq_refl).
    reflexivity.
Qed.

(** *** The search finds a match exactly when the label has a
    BTC-hour substring *)

Lemma lit_ci_sound lit : forall s rest,
  Re.lit_ci lit s = Some rest ->
  exists m, s = (m ++ rest)%string /\ eq_ci lit m = true.
Proof.
  induction lit as [|p lit IH]; intros s rest H.
  - inversion H; subst. exists ""; split; reflexivity.
  - destruct s as [|c s]; [discriminate|]. cbn in H.
    destruct (Re.ieq p c) eqn:E; [|discriminate].
    destruct (IH _ _ H) as (m & -> & Hm).
    exists (String c m). cbn. rewrite E, Hm. split; reflexivity.
Qed.

Lemma lit_ci_complete lit : forall m rest,
  eq_ci lit m = true -> Re.lit_ci lit (m ++ rest) = Some rest.
Proof.
  induction lit as [|p lit IH]; intros [|c m] rest H; try discriminate.
  - reflexivity.
  - cbn in *. apply andb_prop in H as [-> H]. now apply IH.
Qed.

Lemma alt_ampm_sound s ap :
  Re.alt_ampm s = Some ap -> exists a rest, s = (a ++ rest)%string /\ is_ampm a.
Proof.
  unfold Re.alt_ampm, is_ampm. intros H.
  destruct (Re.lit_ci "am" s) as [r|] eqn:E1.
  - destruct (lit_ci_sound _ _ _ E1) as (m & -> & Hm). eauto.
  - destruct (Re.lit_ci "pm" s) as [r|] eqn:E2; [|discriminate].
    destruct (lit_ci_sound _ _ _ E2) as (m & -> & Hm). eauto.
Qed.

Lemma alt_ampm_complete a rest :
  is_ampm a -> Re.alt_ampm (a ++ rest) <> None.
Proof.
  unfold Re.alt_ampm. intros [H|H].
  - now rewrite (lit_ci_complete _ _ rest H).
  - rewrite (lit_ci_complete _ _ rest H).
    now destruct (Re.lit_ci "am" (a ++ rest)).
Qed.

Lemma digits_ampm_sound s r :
  Re.digits_ampm s = Some r ->
  exists ds a rest, s = (ds ++ a ++ rest)%string /\ is_hour ds /\ is_ampm a.
Proof.
  unfold Re.digits_ampm, is_hour. intros H.
  destruct s as [|d1 s1]; [discriminate|].
  destruct (Re.is_digit d1) eqn:D1; [|discriminate].
  assert (Hone : forall r', match Re.alt_ampm s1 with
                            | Some ap => Some (Re.digit_val d1, ap)
                            | None => None
                            end = Some r' ->
          exists ds a rest, String d1 s1 = (ds ++ a ++ rest)%string /\
            is_hour ds /\ is_ampm a).
  { intros r' H'. destruct (Re.alt_ampm s1) eqn:E; [|discriminate].
    destruct (alt_ampm_sound _ _ E) as (a0 & rest & -> & Ha).
    exists (String d1 ""), a0, rest. unfold is_hour. cbn. rewrite D1. auto. }
  destruct s1 as [|d2 s2]; [now apply Hone with r|].
  destruct (Re.is_digit d2) eqn:D2; [|now apply Hone with r].
  destruct (Re.alt_ampm s2) eqn:E; [|now apply Hone with r].
  destruct (alt_ampm_sound _ _ E) as (a0 & rest & -> & Ha).
  exists (String d1 (String d2 "")), a0, rest. unfold is_hour. cbn.
  rewrite D1, D2. auto.
Qed.

Lemma ampm_head_not_digit a rest :
  is_ampm a ->
  exists x t, (a ++ rest)%string = String x t /\ Re.is_digit x = false.
Proof.
  intros H. destruct a as [|x a]; [destruct H; discriminate|].
  exists x, (a ++ rest)%string. split; [reflexivity|].
  assert (Hx : Re.ieq "a" x = true \/ Re.ieq "p" x = true).
  { destruct H as [H|H]; cbn in H; apply andb_prop in H as [H _]; auto. }
  clear H. destruct x as [[] [] [] [] [] [] [] []];
    vm_compute in Hx |- *; destruct Hx; congruence.
Qed.

Lemma digits_ampm_complete ds a rest :
  is_hour ds -> is_ampm a -> Re.digits_ampm (ds ++ a ++ rest) <> None.
Proof.
  intros [Hl Hd] Ha.
  pose proof (alt_ampm_complete a rest Ha) as Hc.
  destruct (ampm_head_not_digit a rest Ha) as (x & t & Hx & Dx).
  destruct ds as [|d1 [|d2 [|d3 ds]]]; cbn in Hl; try lia.
  - cbn in Hd. rewrite andb_true_r in Hd. cbn. rewrite Hd.
    destruct (Re.alt_ampm (a ++ rest)) eqn:E; [|congruence].
    rewrite Hx in *. rewrite Dx. discriminate.
  - cbn in Hd. apply andb_prop in Hd as [D1 D2]. rewrite andb_true_r in D2.
    cbn. rewrite D1, D2.
    destruct (Re.alt_ampm (a ++ rest)) eqn:E; [discriminate|congruence].
Qed.

Lemma spaces_then_sound s : forall r,
  Re.spaces_then s = Some r ->
  exists ws ds a rest, s = (ws ++ ds ++ a ++ rest)%string /\
    all_chars Re.is_space ws = true /\ is_hour ds /\ is_ampm a.
Proof.
  assert (Hbase : forall s r, Re.digits_ampm s = Some r ->
    exists ws ds a rest, s = (ws ++ ds ++ a ++ rest)%string /\
      all_chars Re.is_space ws = true /\ is_hour ds /\ is_ampm a).
  { intros s0 r H. destruct (digits_ampm_sound _ _ H) as (ds & a & rest & -> & ? & ?).
    exists "", ds, a, rest. auto. }
  induction s as [|c s IH]; intros r H; [now apply Hbase with r|].
  cbn [Re.spaces_then] in H.
  destruct (Re.is_space c) eqn:C; [|now apply Hbase with r].
  destruct (Re.spaces_then s) eqn:E; [|now apply Hbase with r].
  destruct (IH _ eq_refl) as (ws & ds & a & rest & -> & Hw & Hh & Ha).
  exists (String c ws), ds, a, rest. cbn. rewrite C, Hw. auto.
Qed.

Lemma spaces_then_base s :
  Re.digits_ampm s <> None -> Re.spaces_then s <> None.
Proof.
  intros H. destruct s as [|c s]; [exact H|].
  cbn [Re.spaces_then]. destruct (Re.is_space c); [|exact H].
  destruct (Re.spaces_then s); [discriminate|exact H].
Qed.

Lemma spaces_then_complete ws : forall s,
  all_chars Re.is_space ws = true ->
  Re.digits_ampm s <> None -> Re.spaces_then (ws ++ s) <> None.
Proof.
  induction ws as [|c ws IH]; intros s Hw Hs; [now apply spaces_then_base|].
  cbn in Hw. apply andb_prop in Hw as [C Hw].
  cbn [append Re.spaces_then]. rewrite C.
  specialize (IH s Hw Hs). destruct (Re.spaces_then (ws ++ s)); congruence.
Qed.

Lemma match_here_sound s r :
  Re.match_here s = Some r -> btc_hour_prefix s.
Proof.
  unfold Re.match_here. intros H.
  destruct (Re.lit_ci "BTC" s) as [[|c t]|] eqn:E; try discriminate.
  destruct (Re.is_space c) eqn:C; [|discriminate].
  destruct (lit_ci_sound _ _ _ E) as (btc & -> & Hb).
  destruct (spaces_then_sound _ _ H) as (ws & ds & a & rest & -> & Hw & Hh & Ha).
  exists btc, (String c ws), ds, a, rest. cbn. rewrite C, Hw.
  repeat split; auto; try apply Hh. discriminate.
Qed.

Lemma match_here_complete s :
  btc_hour_prefix s -> Re.match_here s <> None.
Proof.
  intros (btc & ws & ds & a & rest & -> & Hb & Hne & Hw & Hh & Ha).
  unfold Re.match_here. rewrite (lit_ci_complete _ _ _ Hb).
  destruct ws as [|c ws]; [congruence|].
  cbn in Hw. apply andb_prop in Hw as [C Hw]. cbn [append]. rewrite C.
  apply spaces_then_complete; [exact Hw|]. now apply digits_ampm_complete.
Qed.

Lemma substring_cases label :
  btc_hour_substring label <->
  btc_hour_prefix label \/
  exists c t, label = String c t /\ btc_hour_substring t.
Proof.
  unfold btc_hour_substring. split.
  - intros ([|c pre] & s & -> & H).
    + left. exact H.
    + right. exists c, (pre ++ s)%string. split; [reflexivity|]. eauto.
  - intros [H|(c & t & -> & pre & s & -> & H)].
    + exists "", label. split; [reflexivity|exact H].
    + exists (String c pre), s. split; [reflexivity|exact H].
Qed.

Lemma search_sound label : forall r,
  Re.search label = Some r -> btc_hour_substring label.
Proof.
  induction label as [|c t IH]; intros r H; apply substring_cases.
  - left. cbn in H. discriminate.
  - cbn [Re.search] in H.
    destruct (Re.match_here (String c t)) eqn:E.
    + left. now apply match_here_sound with p.
    + right. exists c, t. split; [reflexivity|]. now apply IH with r.
Qed.

Lemma search_complete label :
  btc_hour_substring label -> Re.search label <> None.
Proof.
  induction label as [|c t IH]; intros H; apply substring_cases in H.
  - destruct H as [H|(c & t & H & _)]; [|discriminate].
    apply match_here_complete in H. cbn. exact H.
  - cbn [Re.search]. destruct H as [H|(c' & t' & E & H)].
    + apply match_here_complete in H.
      destruct (Re.match_here (String c t)); congruence.
    + inversion E; subst.
      destruct (Re.match_here (String c' t')); [discriminate|]. now apply IH.
Qed.

Lemma no_substring_no_match label :
  ~ btc_hour_substring label <-> Re.search label = None.
Proof.
  split.
  - intros H. destruct (Re.search label) eqn:E; [|reflexivity].
    exfalso. apply H. now apply search_sound with p.
  - intros H Hs. now apply search_complete in Hs.
Qed.

(** C5. Whatever the clock reads, [is_trade_expired] returns false, and
    does not even read the clock, when the contract is missing, is
    [None], is empty or has no BTC-hour substring; so it does for the
    labels "ETH 9am" and "BTC morning". *)
Theorem is_trade_expired_false_without_match :
  forall e w trade,
    (dict_get trade "contract" = None \/
     dict_get trade "contract" = Some VNone \/
     dict_get trade "contract" = Some (VStr "") \/
     dict_get trade "contract" = Some (VStr "ETH 9am") \/
     dict_get trade "contract" = Some (VStr "BTC morning") \/
     exists label, dict_get trade "contract" = Some (VStr label) /\
                   ~ btc_hour_substring label) ->
    is_trade_expired trade e w = (Ok false, w).
Proof.
  intros e w trade H.
  assert (Hlabel : forall label, dict_get trade "contract" = Some (VStr label) ->
            Re.search label = None -> is_trade_expired trade e w = (Ok false, w)).
  { intros label Hc Hs. unfold is_trade_expired, dict_get_default. rewrite Hc.
    cbn [truthy]. destruct (negb (negb (label =? "")%string)); [reflexivity|].
    rewrite Hs. reflexivity. }
  destruct H as [H|[H|[H|[H|[H|(label & H & Hn)]]]]].
  - unfold is_trade_expired, dict_get_default. rewrite H. reflexivity.
  - unfold is_trade_expired, dict_get_default. rewrite H. reflexivity.
  - now apply Hlabel with "".
  - now apply Hlabel with "ETH 9am".
  - now apply Hlabel with "BTC morning".
  - apply Hlabel with label; [exact H|]. now apply no_substring_no_match.
Qed.

Lemma is_trade_expired_false_without_match_witness :
  is_trade_expired [("id", VInt 7); ("contract", VStr "BTC 9 am")]
    sample_env empty_world = (Ok false, empty_world).
Proof.
  apply is_trade_expired_false_without_match.
  do 5 right. exists "BTC 9 am". split; [reflexivity|].
  apply no_substring_no_match. vm_compute. reflexivity.
Defined.

(** ** The store *)

Lemma find_row_none i st :
  find_row i st = None <-> forall r, In r (rows st) -> id r <> i.
Proof.
  unfold find_row. split.
  - intros H r Hr. apply (find_none _ _ H) in Hr. now apply Z.eqb_neq.
  - intros H. induction (rows st) as [|r l IH]; [reflexivity|]. cbn.
    destruct (id r =? i) eqn:E.
    + apply Z.eqb_eq in E. exfalso. apply (H r); [now left|exact E].
    + apply IH. intros x Hx. apply H. now right.
Qed.

Section RowUpdate.
Variables (i : Z) (f : Row -> Row).
Hypothesis f_id : forall r, id (f r) = id r.

Lemma where_id_id r : id (Sql.where_id i f r) = id r.
Proof. unfold Sql.where_id. destruct (id r =? i); [apply f_id|reflexivity]. Qed.

Lemma find_updated l :
  find (fun r => id r =? i) (map (Sql.where_id i f) l)
  = option_map f (find (fun r => id r =? i) l).
Proof.
  induction l as [|r l IH]; [reflexivity|]. cbn.
  rewrite where_id_id. unfold Sql.where_id at 1.
  destruct (id r =? i); [reflexivity|exact IH].
Qed.

Lemma others_kept l :
  filter (fun r => negb (id r =? i)) (map (Sql.where_id i f) l)
  = filter (fun r => negb (id r =? i)) l.
Proof.
  induction l as [|r l IH]; [reflexivity|]. cbn.
  rewrite where_id_id. destruct (id r =? i) eqn:E; cbn; [exact IH|].
  unfold Sql.where_id at 1. rewrite E. now rewrite IH.
Qed.

Lemma ids_kept l : map id (map (Sql.where_id i f) l) = map id l.
Proof.
  induction l as [|r l IH]; [reflexivity|]. cbn.
  now rewrite where_id_id, IH.
Qed.

Lemma update_absent l :
  (forall r, In r l -> id r <> i) -> map (Sql.where_id i f) l = l.
Proof.
  intros H. induction l as [|r l IH]; [reflexivity|]. cbn.
  unfold Sql.where_id at 1.
  destruct (id r =? i) eqn:E.
  - apply Z.eqb_eq in E. exfalso. apply (H r); [now left|exact E].
  - f_equal. apply IH. intros x Hx. apply H. now right.
Qed.
End RowUpdate.

(** What a call of [update_trade_status] does when SQLite executes its
    statement. *)
Lemma update_trade_status_runs e w i s ca :
  sqlite_error e (stmts w) = None ->
  fits_int64 i = true ->
  update_trade_status i s ca e w =
    if String.eqb s "closed" then
      match ca with
      | None =>
          (Ok tt, mkWorld (Sql.update_status_closed_at s (eastern_now_iso e w) i (db w))
                          (S (reads w)) (S (stmts w)) (trace w))
      | Some t =>
          (Ok tt, mkWorld (Sql.update_status_closed_at s t i (db w))
                          (reads w) (S (stmts w)) (trace w))
      end
    else (Ok tt, mkWorld (Sql.update_status s i (db w))
                         (reads w) (S (stmts w)) (trace w)).
Proof.
  intros H Hi. unfold update_trade_status.
  destruct (String.eqb s "closed"); [destruct ca|];
    unfold bind, bind_int, utcnow, est_isoformat, ret, execute; rewrite Hi; cbn;
    rewrite H; reflexivity.
Qed.

(** What it does with an id SQLite cannot hold. *)
Lemma update_trade_status_refuses e w i s ca :
  fits_int64 i = false ->
  fst (update_trade_status i s ca e w)
  = Raise (OverflowError "Python int too large to convert to SQLite INTEGER") /\
  db (snd (update_trade_status i s ca e w)) = db w /\
  stmts (snd (update_trade_status i s ca e w)) = stmts w /\
  trace (snd (update_trade_status i s ca e w)) = trace w.
Proof.
  intros Hi. unfold update_trade_status.
  destruct (String.eqb s "closed"); [destruct ca|];
    unfold bind, bind_int, utcnow, est_isoformat, ret, raise; rewrite Hi; cbn;
    repeat split.
Qed.

Lemma ids_fit_found i st r :
  ids_fit st -> find_row i st = Some r -> fits_int64 i = true.
Proof.
  intros Hf Hr. unfold find_row in Hr. apply find_some in Hr as [Hin Hi].
  apply Z.eqb_eq in Hi. subst i. unfold ids_fit in Hf.
  rewrite Forall_forall in Hf. now apply Hf.
Qed.

(** C6. On an existing id of a table whose ids SQLite can hold, when
    SQLite executes the statement:
    [update_trade_status] with status closed and no [closed_at] writes
    the status and stamps the current Eastern instant; with a
    [closed_at] it writes the one supplied; with another status it
    writes the status and leaves [closed_at] as it was; the other
    fields of the record, and the records of the other trades, are
    unchanged. *)
Theorem update_trade_status_frame :
  forall e w i r s ca,
    ids_fit (db w) ->
    find_row i (db w) = Some r ->
    sqlite_error e (stmts w) = None ->
    let w' := snd (update_trade_status i s ca e w) in
    fst (update_trade_status i s ca e w) = Ok tt /\
    (exists r',
       find_row i (db w') = Some r' /\
       status r' = s /\
       closed_at r' = (if String.eqb s "closed"
                       then Some (match ca with
                                  | Some t => t
                                  | None => eastern_now_iso e w
                                  end)
                       else closed_at r) /\
       id r' = id r /\ date r' = date r /\ time r' = time r /\
       strike r' = strike r /\ side r' = side r /\ price r' = price r /\
       position r' = position r /\ contract r' = contract r) /\
    other_rows i (db w') = other_rows i (db w) /\
    map id (rows (db w')) = map id (rows (db w)) /\
    seq (db w') = seq (db w).
Proof.
  intros e w i r s ca Hfit Hr He w'. unfold w'.
  rewrite (update_trade_status_runs e w i s ca He (ids_fit_found _ _ _ Hfit Hr)).
  unfold find_row, other_rows in *.
  destruct (String.eqb s "closed"); [destruct ca as [t|]|]; cbn [fst snd db];
    unfold Sql.update_status_closed_at, Sql.update_status; cbn [rows seq];
    (split; [reflexivity|]);
    rewrite find_updated, others_kept, ids_kept by reflexivity;
    rewrite Hr; cbn [option_map];
    (split; [eexists; split; [reflexivity|]; cbn; repeat split; reflexivity|]);
    repeat split; reflexivity.
Qed.

Lemma update_trade_status_frame_witness :
  fst (update_trade_status 1 "closed" None sample_env (world_of two_trades)) = Ok tt /\
  other_rows 1 (db (snd (update_trade_status 1 "closed" None sample_env
                           (world_of two_trades))))
  = other_rows 1 two_trades.
Proof.
  assert (Hfit : ids_fit (db (world_of two_trades))).
  { repeat constructor. }
  pose proof (update_trade_status_frame sample_env (world_of two_trades) 1
                (sample_row 1 "open" None (Some "BTC 7am")) "closed" None
                Hfit eq_refl eq_refl) as H.
  split; [exact (proj1 H) | exact (proj1 (proj2 (proj2 H)))].
Defined.

Lemma delete_trade_runs e w i :
  sqlite_error e (stmts w) = None ->
  fits_int64 i = true ->
  delete_trade i e w =
    (Ok tt, mkWorld (Sql.delete i (db w)) (reads w) (S (stmts w)) (trace w)).
Proof.
  intros H Hi. unfold delete_trade, bind, bind_int, ret, execute.
  rewrite Hi. cbn. rewrite H. reflexivity.
Qed.

Lemma delete_trade_refuses e w i :
  fits_int64 i = false ->
  delete_trade i e w
  = (Raise (OverflowError "Python int too large to convert to SQLite INTEGER"), w).
Proof.
  intros Hi. unfold delete_trade, bind, bind_int, raise. rewrite Hi. reflexivity.
Qed.

Lemma delete_absent i st :
  find_row i st = None -> Sql.delete i st = st.
Proof.
  intros H. destruct st as [l q]. unfold Sql.delete. cbn [rows seq]. f_equal.
  pose proof (proj1 (find_row_none i _) H) as Hn. cbn [rows] in Hn.
  clear H. induction l as [|r l IH]; [reflexivity|]. cbn.
  destruct (id r =? i) eqn:E.
  - apply Z.eqb_eq in E. exfalso. apply (Hn r); [now left|exact E].
  - cbn. f_equal. apply IH. intros x Hx. apply Hn. now right.
Qed.

Lemma find_row_deleted i st : find_row i (Sql.delete i st) = None.
Proof.
  apply find_row_none. intros r Hr. unfold Sql.delete in Hr. cbn [rows] in Hr.
  apply filter_In in Hr as [_ Hr]. apply negb_true_iff in Hr.
  now apply Z.eqb_neq.
Qed.

Lemma update_absent_store i s st :
  find_row i st = None -> Sql.update_status s i st = st.
Proof.
  intros H. destruct st as [l q]. unfold Sql.update_status. cbn [rows seq].
  f_equal. apply update_absent. exact (proj1 (find_row_none i _) H).
Qed.

Lemma update_closed_absent_store i s t st :
  find_row i st = None -> Sql.update_status_closed_at s t i st = st.
Proof.
  intros H. destruct st as [l q]. unfold Sql.update_status_closed_at.
  cbn [rows seq]. f_equal. apply update_absent.
  exact (proj1 (find_row_none i _) H).
Qed.

(** C8, as stated, fails. No row has the id 2^63, yet
    [update_trade_status] and [delete_trade] raise on it: an integer
    outside 64 bits cannot be bound to a statement. *)
Lemma oversized_missing_id_raises :
  find_row (2 ^ 63) two_trades = None /\
  fst (update_trade_status (2 ^ 63) "closed" None sample_env (world_of two_trades))
  = Raise (OverflowError "Python int too large to convert to SQLite INTEGER") /\
  fst (delete_trade (2 ^ 63) sample_env (world_of two_trades))
  = Raise (OverflowError "Python int too large to convert to SQLite INTEGER").
Proof. vm_compute. repeat split; reflexivity. Qed.

(** C8, amended. When SQLite executes the statement: on an id within
    64 bits that no row has, [update_trade_status] and [delete_trade]
    return without raising and leave the table as it was; and after a
    [delete_trade] of such an id the id is gone, so that a second
    [delete_trade] of it returns without raising and changes
    nothing. *)
Theorem missing_id_is_a_noop :
  forall e w i,
    sqlite_error e (stmts w) = None ->
    fits_int64 i = true ->
    (find_row i (db w) = None ->
     (forall s ca,
        fst (update_trade_status i s ca e w) = Ok tt /\
        db (snd (update_trade_status i s ca e w)) = db w) /\
     fst (delete_trade i e w) = Ok tt /\
     db (snd (delete_trade i e w)) = db w) /\
    (let w1 := snd (delete_trade i e w) in
     find_row i (db w1) = None /\
     (sqlite_error e (stmts w1) = None ->
      fst (delete_trade i e w1) = Ok tt /\
      db (snd (delete_trade i e w1)) = db w1)).
Proof.
  intros e w i He Hi. split.
  - intros Hn. split; [intros s ca|].
    + rewrite (update_trade_status_runs e w i s ca He Hi).
      destruct (String.eqb s "closed"); [destruct ca|]; cbn [fst snd db];
        (split; [reflexivity|]);
        auto using update_absent_store, update_closed_absent_store.
    + rewrite (delete_trade_runs e w i He Hi). cbn [fst snd db].
      split; [reflexivity|now apply delete_absent].
  - rewrite (delete_trade_runs e w i He Hi). cbn [snd].
    set (w1 := mkWorld _ _ _ _). cbn zeta.
    split; [apply find_row_deleted|]. intros He1.
    rewrite (delete_trade_runs e w1 i He1 Hi). cbn [fst snd db].
    split; [reflexivity|]. apply delete_absent, find_row_deleted.
Qed.

Lemma missing_id_is_a_noop_witness :
  fst (update_trade_status 9 "closed" None sample_env (world_of two_trades)) = Ok tt /\
  db (snd (update_trade_status 9 "closed" None sample_env (world_of two_trades)))
  = two_trades.
Proof.
  exact (proj1 (proj1 (missing_id_is_a_noop sample_env (world_of two_trades) 9
                         eq_refl eq_refl) eq_refl) "closed" None).
Defined.

(** *** Sequences of store operations *)

(** C2, as stated, fails. A trade that was closed is open again after
    [update_trade_status] with status open, and keeps its [closed_at];
    and a trade created with status closed has no [closed_at]. *)
Lemma reopen_keeps_closed_at :
  let t := sample_trade None (Some "BTC 2pm") in
  let w1 := after_ops [Create t; SetStatus 1 "closed" None] sample_env empty_world in
  let w2 := after_ops [Create t; SetStatus 1 "closed" None; SetStatus 1 "open" None]
              sample_env empty_world in
  let w3 := after_ops [Create (sample_trade (Some "closed") None)]
              sample_env empty_world in
  (exists r, find_row 1 (db w1) = Some r /\ status r = "closed") /\
  (exists r, find_row 1 (db w2) = Some r /\ In r (rows (db w2)) /\
             status r = "open" /\ closed_at r <> None /\ ~ well_formed r) /\
  (exists r, In r (rows (db w3)) /\
             status r = "closed" /\ closed_at r = None /\ ~ well_formed r).
Proof.
  cbv zeta. split; [|split].
  - eexists. split; [vm_compute; reflexivity|reflexivity].
  - eexists. split; [vm_compute; reflexivity|].
    split; [vm_compute; left; reflexivity|].
    split; [reflexivity|]. split; [discriminate|].
    unfold well_formed. cbn. intros [H _].
    assert (E : "open" = "closed") by (apply H; discriminate). discriminate E.
  - eexists. split; [vm_compute; left; reflexivity|].
    split; [reflexivity|]. split; [reflexivity|].
    unfold well_formed. cbn. intros [_ H]. exact (H eq_refl eq_refl).
Qed.

Lemma run_op_db e w o : db (snd (run_op o e w)) = store_after e w o.
Proof.
  unfold store_after, refused. destruct o as [t|i s ca|i]; cbn [run_op].
  - unfold insert_trade, bind, bind_int, lift, execute_checked, raise, ret,
      stored_price, Sql.insert_checked.
    destruct (Float64.div (nt_price t) 100); [|reflexivity]. cbn [fst snd].
    destruct (fits_int64 (nt_position t)); [|reflexivity]. cbn [fst snd stmts db].
    destruct (fits_int64 (seq (db w) + 1));
      destruct (sqlite_error e (stmts w)); reflexivity.
  - unfold update_trade_status.
    destruct (String.eqb s "closed"); [destruct ca|];
      unfold bind, bind_int, utcnow, est_isoformat, execute, raise, ret; cbn;
      destruct (fits_int64 i); cbn; try reflexivity;
      destruct (sqlite_error e (stmts w)); reflexivity.
  - unfold delete_trade, bind, bind_int, execute, raise, ret.
    destruct (fits_int64 i); cbn; [|reflexivity].
    destruct (sqlite_error e (stmts w)); reflexivity.
Qed.

(** No operation puts in the table an id SQLite cannot hold: a table
    that starts empty never has one. *)
Lemma ids_fit_run_op e w o :
  ids_fit (db w) -> ids_fit (db (snd (run_op o e w))).
Proof.
  intros H. rewrite run_op_db. unfold store_after.
  destruct (refused e w o) eqn:R; [exact H|]. unfold refused in R.
  apply orb_false_elim in R as [R _]. unfold ids_fit in *.
  destruct o as [t|i s ca|i].
  - destruct (Float64.div (nt_price t) 100); [|discriminate R].
    apply negb_false_iff, andb_prop in R as [_ Hs].
    unfold Sql.insert. cbn [fst rows]. apply Forall_app. split; [exact H|].
    constructor; [exact Hs|constructor].
  - assert (Hm : forall f, (forall r, id (f r) = id r) ->
                           Forall (fun r => fits_int64 (id r) = true)
                                  (map (Sql.where_id i f) (rows (db w)))).
    { intros f Hf. apply Forall_map. eapply Forall_impl; [|exact H].
      intros r Hr. unfold Sql.where_id.
      destruct (id r =? i); [now rewrite Hf|exact Hr]. }
    destruct (String.eqb s "closed"); apply Hm; reflexivity.
  - cbn [Sql.delete rows]. apply Forall_forall. intros r Hr.
    apply filter_In in Hr as [Hr _]. rewrite Forall_forall in H. now apply H.
Qed.

Lemma ids_fit_after_ops os : forall e w,
  ids_fit (db w) -> ids_fit (db (after_ops os e w)).
Proof.
  induction os as [|o os IH]; intros e w H; [exact H|].
  cbn [after_ops]. apply IH. now apply ids_fit_run_op.
Qed.

Lemma find_row_some i st r :
  find_row i st = Some r -> In r (rows st) /\ id r = i.
Proof.
  unfold find_row. intros H. apply find_some in H as [H1 H2].
  split; [exact H1|now apply Z.eqb_eq].
Qed.

Lemma find_row_insert i st d t k s p pos stat c :
  i <= seq st ->
  find_row i (fst (Sql.insert d t k s p pos stat c st)) = find_row i st.
Proof.
  intros Hi. unfold find_row, Sql.insert. cbn [fst rows].
  induction (rows st) as [|r l IH]; cbn.
  - replace (seq st + 1 =? i) with false; [reflexivity|].
    symmetry. apply Z.eqb_neq. lia.
  - destruct (id r =? i); [reflexivity|exact IH].
Qed.

Lemma find_row_update i j f l :
  (forall r, id (f r) = id r) ->
  find (fun r => id r =? i) (map (Sql.where_id j f) l)
  = option_map (Sql.where_id j f) (find (fun r => id r =? i) l).
Proof.
  intros Hf. induction l as [|r l IH]; [reflexivity|]. cbn.
  rewrite (where_id_id j f Hf). destruct (id r =? i); [reflexivity|exact IH].
Qed.

Lemma find_row_delete i j st r :
  find_row i (Sql.delete j st) = Some r -> find_row i st = Some r.
Proof.
  unfold find_row, Sql.delete. cbn [rows].
  induction (rows st) as [|x l IH]; [discriminate|]. cbn.
  destruct (id x =? j) eqn:Ej; cbn.
  - intros H. specialize (IH H). destruct (id x =? i) eqn:Ei; [|exact IH].
    apply find_some in H as [H _]. apply filter_In in H as [_ H].
    apply find_some in IH as [_ IH].
    apply Z.eqb_eq in Ej, Ei, IH. apply negb_true_iff, Z.eqb_neq in H. lia.
  - destruct (id x =? i); [auto|exact IH].
Qed.

Lemma well_formed_open r s :
  well_formed r -> is_closed r = false -> s <> "closed" ->
  well_formed (Sql.set_status s r).
Proof.
  unfold well_formed, is_closed. intros [H1 H2] Hc Hs. cbn.
  apply String.eqb_neq in Hc. split; [|contradiction].
  intros Hn. exfalso. apply Hc. now apply H1.
Qed.

Lemma not_closed_of_forward st i r :
  existsb (fun r => (id r =? i) && is_closed r) (rows st) = false ->
  In r (rows st) -> id r = i -> is_closed r = false.
Proof.
  intros H Hr Hi. destruct (is_closed r) eqn:E; [|reflexivity].
  assert (Ht : existsb (fun r => (id r =? i) && is_closed r) (rows st) = true).
  { apply existsb_exists. exists r. split; [exact Hr|].
    rewrite E, andb_true_r. now apply Z.eqb_eq. }
  congruence.
Qed.

(** One forward operation keeps the table in order, and keeps an id
    that is closed or gone in that state. *)
Lemma forward_step e w o :
  store_ok (db w) -> forward (db w) o = true ->
  store_ok (store_after e w o) /\
  (forall i, closed_or_gone i (db w) -> closed_or_gone i (store_after e w o)).
Proof.
  intros Hok Hf. unfold store_after.
  destruct (refused e w o).
  { split; [exact Hok|]. auto. }
  destruct o as [t|j s ca|j]; cbn [forward] in Hf.
  - split.
    + intros r Hr. unfold Sql.insert in *. cbn [fst rows seq] in *.
      apply in_app_or in Hr as [Hr|[<-|[]]].
      * destruct (Hok r Hr). split; [assumption|lia].
      * split; [|cbn; lia]. unfold well_formed. cbn.
        split; [congruence|]. intros E.
        destruct (nt_status t) as [s|]; [|discriminate].
        apply negb_true_iff, String.eqb_neq in Hf. congruence.
    + intros i [Hi Hc]. split.
      * unfold Sql.insert. cbn [fst seq]. lia.
      * intros r H3. rewrite find_row_insert in H3 by exact Hi. now apply Hc.
  - destruct (String.eqb s "closed") eqn:Es.
    + apply String.eqb_eq in Es. subst s. split.
      * intros r Hr. unfold Sql.update_status_closed_at in *.
        cbn [rows seq] in *. apply in_map_iff in Hr as (x & <- & Hx).
        destruct (Hok x Hx) as [Hw Hi]. unfold Sql.where_id.
        destruct (id x =? j); [|tauto].
        split; [|exact Hi]. unfold well_formed. cbn. split; congruence.
      * intros i [Hi Hc]. split; [exact Hi|]. intros r' H3.
        unfold find_row, Sql.update_status_closed_at in *. cbn [rows] in H3.
        rewrite find_row_update in H3 by reflexivity.
        destruct (find _ (rows (db w))) as [r|]; [|discriminate].
        cbn in H3. inversion H3. unfold Sql.where_id.
        destruct (id r =? j); [reflexivity|now apply Hc].
    + cbn in Hf. apply negb_true_iff in Hf.
      apply String.eqb_neq in Es. split.
      * intros r Hr. unfold Sql.update_status in *.
        cbn [rows seq] in *. apply in_map_iff in Hr as (x & <- & Hx).
        destruct (Hok x Hx) as [Hw Hi]. unfold Sql.where_id.
        destruct (id x =? j) eqn:Ej; [|tauto].
        split; [|exact Hi]. apply well_formed_open; [exact Hw| |exact Es].
        apply (not_closed_of_forward (db w) j); [exact Hf|exact Hx|now apply Z.eqb_eq].
      * intros i [Hi Hc]. split; [exact Hi|]. intros r' H3.
        unfold find_row, Sql.update_status in *. cbn [rows] in H3.
        rewrite find_row_update in H3 by reflexivity.
        destruct (find _ (rows (db w))) as [r|] eqn:H1; [|discriminate].
        cbn in H3. inversion H3. unfold Sql.where_id.
        specialize (Hc r eq_refl).
        destruct (id r =? j) eqn:Ej; [|exact Hc]. exfalso.
        apply find_some in H1 as [H1 _]. apply Z.eqb_eq in Ej.
        pose proof (not_closed_of_forward (db w) j r Hf H1 Ej) as Hn.
        unfold is_closed in Hn. rewrite Hc in Hn. discriminate Hn.
  - split.
    + intros r Hr. unfold Sql.delete in *. cbn [rows seq] in *.
      apply filter_In in Hr as [Hr _]. now apply Hok.
    + intros i [Hi Hc]. split; [exact Hi|].
      intros r' H3. apply find_row_delete in H3. now apply Hc.
Qed.

Lemma forward_run os : forall e w,
  store_ok (db w) -> all_forward os e w ->
  store_ok (db (after_ops os e w)) /\
  (forall i, closed_or_gone i (db w) -> closed_or_gone i (db (after_ops os e w))).
Proof.
  induction os as [|o os IH]; intros e w Hok Hf; [split; auto|].
  destruct Hf as [Hf Hrest]. cbn [after_ops].
  destruct (forward_step e w o Hok Hf) as [Hok' Hkeep].
  rewrite <- run_op_db in Hok', Hkeep.
  destruct (IH e _ Hok' Hrest) as [Hok'' Hkeep']. auto.
Qed.

(** C2, amended. From a table whose records are well formed, every
    sequence of creates with a status other than closed, of set_status
    calls to closed, of set_status calls to another status on trades
    that are not closed, and of deletes, leaves every record with a
    [closed_at] exactly when its status is closed, and a trade that was
    closed is still closed, not open, for as long as it exists. *)
Theorem forward_ops_keep_records_well_formed :
  forall os e w,
    store_ok (db w) ->
    all_forward os e w ->
    (forall r, In r (rows (db (after_ops os e w))) -> well_formed r) /\
    (forall i r r',
       find_row i (db w) = Some r -> status r = "closed" ->
       find_row i (db (after_ops os e w)) = Some r' ->
       status r' = "closed" /\ status r' <> "open").
Proof.
  intros os e w Hok Hf. destruct (forward_run os e w Hok Hf) as [H1 H2]. split.
  - intros r Hr. now apply H1.
  - intros i r r' Ha Hb Hc.
    assert (Hi : closed_or_gone i (db w)).
    { split.
      - apply find_row_some in Ha as [Hin <-]. now apply Hok.
      - intros x Hx. congruence. }
    pose proof (proj2 (H2 i Hi) r' Hc) as Hs.
    split; [exact Hs|]. rewrite Hs. discriminate.
Qed.

Lemma forward_ops_keep_records_well_formed_witness :
  store_ok two_trades /\
  well_formed (sample_row 1 "closed" (Some "2026-11-04T07:00:03-05:00")
                 (Some "BTC 7am")).
Proof.
  assert (Hok : store_ok two_trades).
  { intros r [<-|[<-|[]]]; (split; [|vm_compute; congruence]);
      unfold well_formed; cbn; split; congruence. }
  split; [exact Hok|].
  apply (proj1 (forward_ops_keep_records_well_formed
                  [SetStatus 1 "pending" None;
                   SetStatus 1 "closed" (Some "2026-11-04T07:00:03-05:00");
                   Create (sample_trade None None); Delete 2]
                  sample_env (world_of two_trades) Hok
                  (conj eq_refl (conj eq_refl (conj eq_refl (conj eq_refl I)))))).
  vm_compute. left. reflexivity.
Defined.

(** ** The monitor *)

Lemma for_each_raises {A} (body : A -> M unit) before x after e : forall w w1 w2 ex,
  for_each before body e w = (Ok tt, w1) ->
  body x e w1 = (Raise ex, w2) ->
  for_each (before ++ x :: after) body e w = (Raise ex, w2).
Proof.
  induction before as [|y before IH]; intros w w1 w2 ex H1 H2.
  - cbn in H1. inversion H1; subst. cbn. unfold bind. now rewrite H2.
  - cbn in H1 |- *. unfold bind in *.
    destruct (body y e w) as [[[]|ey] wy]; [|discriminate].
    now apply IH with w1.
Qed.

Lemma monitor_period_ok e w :
  exists w1, monitor_period e w = (Ok tt, slept w1).
Proof.
  unfold monitor_period, bind, try_except.
  destruct (monitor_pass e w) as [[[]|x] w1].
  - exists w1. reflexivity.
  - exists (mkWorld (db w1) (reads w1) (stmts w1)
              (trace w1 ++ [Print ("[Trade Monitor] Error: " ++ exn_str x)%string])).
    reflexivity.
Qed.

Lemma trade_monitor_loop_ok n : forall e w,
  fst (trade_monitor_loop n e w) = Ok tt.
Proof.
  induction n as [|n IH]; intros e w; [reflexivity|].
  cbn [trade_monitor_loop]. unfold bind.
  destruct (monitor_period_ok e w) as [w1 ->]. apply IH.
Qed.

(** C3, as stated, fails. With two open trades both due, a storage
    failure while closing the first ends the pass: the second is never
    evaluated (the two clock readings are those of the first trade,
    nothing was printed for the second) and stays open although it is
    due; the error is printed and the
    monitor sleeps. *)
Lemma storage_failure_skips_remaining_trades :
  let w := world_of two_due in
  let w' := snd (monitor_period locked_once_env w) in
  fst (monitor_period locked_once_env w) = Ok tt /\
  db w' = two_due /\
  reads w' = 2%nat /\
  trace w' = [Print "[Trade Monitor] Auto-closing trade id=1 due to expiration";
              Print "[Trade Monitor] Error: database is locked";
              Sleep 5] /\
  fst (is_trade_expired
         (zip open_keys (Sql.cols9 (sample_row 2 "open" None (Some "BTC 7am"))))
         locked_once_env w') = Ok true.
Proof. vm_compute. repeat split; reflexivity. Qed.

(** C3, amended. The loop never raises: every period returns and ends
    with the sleep of 5. When the scan raises, or when evaluating or
    closing a trade raises after the trades before it were handled, the
    error is caught and printed, the rest of the pass is abandoned (the
    world after the period is the world at the failure, plus the report
    and the sleep), and the loop goes on with its next period. *)
Theorem monitor_error_ends_the_pass :
  forall e w,
    (forall n, fst (trade_monitor_loop n e w) = Ok tt) /\
    (exists w1, monitor_period e w = (Ok tt, slept w1)) /\
    (forall x w0,
       fetch_open_trades e w = (Raise x, w0) ->
       monitor_period e w = (Ok tt, reported x w0)) /\
    (forall before trade after x w0 w1 w2,
       fetch_open_trades e w = (Ok (before ++ trade :: after)%list, w0) ->
       for_each before check_and_close e w0 = (Ok tt, w1) ->
       check_and_close trade e w1 = (Raise x, w2) ->
       monitor_period e w = (Ok tt, reported x w2) /\
       forall n, trade_monitor_loop (S n) e w
                 = trade_monitor_loop n e (reported x w2)).
Proof.
  intros e w. split; [|split; [|split]].
  - intros n. apply trade_monitor_loop_ok.
  - apply monitor_period_ok.
  - intros x w0 H. unfold monitor_period, bind, try_except, monitor_pass, bind.
    rewrite H. reflexivity.
  - intros before trade after x w0 w1 w2 H0 H1 H2.
    assert (Hp : monitor_period e w = (Ok tt, reported x w2)).
    { unfold monitor_period, bind, try_except, monitor_pass, bind.
      rewrite H0, (for_each_raises _ _ _ after _ _ _ _ _ H1 H2). reflexivity. }
    split; [exact Hp|]. intros n. cbn [trade_monitor_loop]. unfold bind at 1.
    rewrite Hp. reflexivity.
Qed.

Lemma monitor_error_ends_the_pass_witness :
  monitor_period locked_once_env (world_of two_due)
  = (Ok tt, reported (OperationalError "database is locked")
              (mkWorld two_due 2 2
                 [Print "[Trade Monitor] Auto-closing trade id=1 due to expiration"])).
Proof.
  refine (proj1 (proj2 (proj2 (proj2 (monitor_error_ends_the_pass locked_once_env
                   (world_of two_due))))
            [] (zip open_keys (Sql.cols9 (sample_row 1 "open" None (Some "BTC 7am"))))
            [zip open_keys (Sql.cols9 (sample_row 2 "open" None (Some "BTC 7am")))]
            (OperationalError "database is locked")
            (mkWorld two_due 0 1 []) (mkWorld two_due 0 1 []) _ _ _ _));
    vm_compute; reflexivity.
Defined.

(** ** Listing *)

(** C7. A trade closed at this very instant is not among the trades
    closed within the last hour, nor within the last four: the stamp is
    Eastern wall-clock text ("2026-11-04T07:00:00-05:00"), the cutoff
    is UTC text ("2026-11-04T11:00:00" for one hour), and SQLite
    compares them as text. Only from five hours on is it listed. *)
Theorem fresh_close_missing_from_recent_closed :
  let w := world_of one_open in
  fst (close_then_list_recent 1 sample_env w) = Ok [] /\
  fst (close_then_list_recent 4 sample_env w) = Ok [] /\
  fst (close_then_list_recent 5 sample_env w)
    = Ok [zip all_keys (Sql.cols10 (sample_row 1 "closed"
            (Some "2026-11-04T07:00:00-05:00") (Some "BTC 7am")))] /\
  find_row 1 (db (snd (close_then_list_recent 1 sample_env w)))
    = Some (sample_row 1 "closed" (Some "2026-11-04T07:00:00-05:00")
              (Some "BTC 7am")).
Proof. vm_compute. repeat split; reflexivity. Qed.

Section OrderDesc.
Context {A : Type} (ge : A -> A -> bool).
Hypothesis ge_total : forall a b, ge a b = true \/ ge b a = true.
Hypothesis ge_trans : forall a b c, ge a b = true -> ge b c = true -> ge a c = true.

Lemma insert_desc_perm x l : Permutation (x :: l) (Sql.insert_desc ge x l).
Proof.
  induction l as [|y l IH]; cbn; [reflexivity|].
  destruct (ge x y); [reflexivity|].
  rewrite perm_swap. now apply perm_skip.
Qed.

Lemma order_desc_perm l : Permutation l (Sql.order_desc ge l).
Proof.
  induction l as [|x l IH]; cbn; [reflexivity|].
  rewrite <- insert_desc_perm. now apply perm_skip.
Qed.

Lemma insert_desc_sorted x l :
  StronglySorted (fun a b => ge a b = true) l ->
  StronglySorted (fun a b => ge a b = true) (Sql.insert_desc ge x l).
Proof.
  induction 1 as [|y l Hs IH Hy]; cbn.
  - constructor; constructor.
  - destruct (ge x y) eqn:E.
    + constructor; [now constructor|]. constructor; [exact E|].
      eapply Forall_impl; [|exact Hy]. intros a Ha. now apply ge_trans with y.
    + constructor; [exact IH|].
      apply (Permutation_Forall (insert_desc_perm x l)).
      constructor; [|exact Hy].
      destruct (ge_total x y) as [H|H]; [congruence|exact H].
Qed.

Lemma order_desc_sorted l :
  StronglySorted (fun a b => ge a b = true) (Sql.order_desc ge l).
Proof.
  induction l as [|x l IH]; cbn; [constructor|]. now apply insert_desc_sorted.
Qed.
End OrderDesc.

(** [SELECT ... ORDER BY id DESC] returns every row, highest id
    first. *)
Lemma select_all_sorted st :
  Permutation (rows st) (Sql.select_all st) /\
  StronglySorted (fun a b => id b <= id a) (Sql.select_all st).
Proof.
  split; [apply order_desc_perm|].
  assert (H : StronglySorted (fun a b : Row => (id b <=? id a) = true)
                (Sql.select_all st)).
  { apply order_desc_sorted.
    - intros a b. rewrite !Z.leb_le. lia.
    - intros a b c. rewrite !Z.leb_le. lia. }
  induction H as [|a l _ IH Hf]; constructor; [exact IH|].
  eapply Forall_impl; [|exact Hf]. cbn. intros b Hb. apply Z.leb_le. exact Hb.
Qed.

(** ** The singleton monitor *)

Lemma reachable_at_most_handle p : reachable p -> at_most_handle p.
Proof.
  induction 1 as [|p Hp IH|p t Hp IH Ht].
  - left. reflexivity.
  - unfold start_trade_monitor, is_alive.
    destruct IH as [E|(t & Hh & E)]; rewrite ?Hh, E; cbn.
    + destruct (_monitor_thread p); right; eexists;
        (split; [reflexivity|]); cbn; now rewrite E.
    + rewrite Nat.eqb_refl. cbn. right. exists t. auto.
  - destruct IH as [E|(u & Hh & E)]; [rewrite E in Ht; destruct Ht|].
    rewrite E in Ht. destruct Ht as [<-|[]].
    left. unfold thread_dies. cbn. rewrite E. cbn. now rewrite Nat.eqb_refl.
Qed.

(** C9. In every process state, a call of [start_trade_monitor] while
    the thread held in [_monitor_thread] is alive changes nothing. In
    every state reached by calls of [start_trade_monitor] and deaths of
    monitor threads, at most one monitor loop is running; a call while
    there is no thread, or while it is dead, starts one thread, which
    is then the only one running; and after any call exactly one is
    running. *)
Theorem start_trade_monitor_idempotent :
  forall p,
    (forall t, _monitor_thread p = Some t -> is_alive p t = true ->
               start_trade_monitor p = p) /\
    (reachable p ->
     (List.length (running p) <= 1)%nat /\
     ((_monitor_thread p = None \/
       exists t, _monitor_thread p = Some t /\ is_alive p t = false) ->
      running (start_trade_monitor p) = [created p] /\
      _monitor_thread (start_trade_monitor p) = Some (created p)) /\
     (List.length (running (start_trade_monitor p)) = 1)%nat).
Proof.
  intros p. split.
  { intros t Hh Ha. unfold start_trade_monitor. now rewrite Hh, Ha. }
  intros Hp. pose proof (reachable_at_most_handle p Hp) as Hi.
  assert (Hdead : (_monitor_thread p = None \/
            exists t, _monitor_thread p = Some t /\ is_alive p t = false) ->
            running p = [] /\ start_trade_monitor p = spawn_monitor p).
  { unfold start_trade_monitor.
    intros [Hn|(t & Hh & Ha)]; destruct Hi as [E|(u & Hu & E)].
    - rewrite Hn. auto.
    - congruence.
    - rewrite Hh, Ha. auto.
    - assert (u = t) by congruence. subst u.
      unfold is_alive in Ha. rewrite E in Ha. cbn in Ha.
      rewrite Nat.eqb_refl in Ha. discriminate Ha. }
  split; [|split].
  - destruct Hi as [E|(t & _ & E)]; rewrite E; cbn; lia.
  - intros H. destruct (Hdead H) as [E ->]. unfold spawn_monitor. cbn.
    now rewrite E.
  - unfold start_trade_monitor.
    destruct (_monitor_thread p) as [t|] eqn:Hh.
    + destruct (is_alive p t) eqn:Ha; cbn [negb].
      * destruct Hi as [E|(u & Hu & E)]; [|now rewrite E].
        unfold is_alive in Ha. rewrite E in Ha. discriminate Ha.
      * destruct (Hdead (or_intror (ex_intro _ t (conj eq_refl Ha)))) as [E _].
        unfold spawn_monitor. cbn. now rewrite E.
    + destruct (Hdead (or_introl eq_refl)) as [E _].
      unfold spawn_monitor. cbn. now rewrite E.
Qed.

Lemma start_trade_monitor_idempotent_witness :
  (List.length (running (thread_dies 0 (start_trade_monitor initial_process))) <= 1)%nat /\
  (List.length (running (start_trade_monitor
                           (thread_dies 0 (start_trade_monitor initial_process)))) = 1)%nat.
Proof.
  pose proof (proj2 (start_trade_monitor_idempotent
                       (thread_dies 0 (start_trade_monitor initial_process)))
                (reach_death _ 0%nat (reach_start _ reach_initial)
                   (or_introl eq_refl))) as H.
  split; [exact (proj1 H) | exact (proj2 (proj2 H))].
Defined.

(** ** The fields of the listed records *)

Lemma keys_open r : keys (zip open_keys (Sql.cols9 r)) = open_keys.
Proof. reflexivity. Qed.

Lemma keys_all r : keys (zip all_keys (Sql.cols10 r)) = all_keys.
Proof. reflexivity. Qed.

Lemma fetch_open_trades_keys e w ts w' :
  fetch_open_trades e w = (Ok ts, w') ->
  forall t, In t ts -> keys t = open_keys.
Proof.
  unfold fetch_open_trades, bind, execute, ret.
  destruct (sqlite_error e (stmts w)); [discriminate|].
  intros H t Ht. inversion H; subst. clear H.
  apply in_map_iff in Ht as (row & <- & Hrow).
  apply in_map_iff in Hrow as (r & <- & _). apply keys_open.
Qed.

Lemma fetch_all_trades_keys e w ts w' :
  fetch_all_trades e w = (Ok ts, w') ->
  forall t, In t ts -> keys t = all_keys.
Proof.
  unfold fetch_all_trades, bind, execute, ret.
  destruct (sqlite_error e (stmts w)); [discriminate|].
  intros H t Ht. inversion H; subst. clear H.
  apply in_map_iff in Ht as (row & <- & Hrow).
  apply in_map_iff in Hrow as (r & <- & _). apply keys_all.
Qed.

Lemma fetch_recent_closed_trades_keys h e w ts w' :
  fetch_recent_closed_trades h e w = (Ok ts, w') ->
  forall t, In t ts -> keys t = all_keys.
Proof.
  unfold fetch_recent_closed_trades, bind, utcnow, lift, execute, ret.
  destruct (Dt.in_range _); [|discriminate]. cbn [stmts].
  destruct (sqlite_error e (stmts w)); [discriminate|].
  intros H t Ht. inversion H; subst. clear H.
  apply in_map_iff in Ht as (row & <- & Hrow).
  apply in_map_iff in Hrow as (r & <- & _). apply keys_all.
Qed.

Lemma get_trades_closed_keys rh e w ts w' :
  get_trades (Some "closed") rh e w = (Ok ts, w') ->
  forall t, In t ts -> keys t = all_keys.
Proof.
  unfold get_trades. cbn [String.eqb Ascii.eqb Bool.eqb andb].
  destruct (truthy _).
  - apply fetch_recent_closed_trades_keys.
  - unfold bind, ret.
    destruct (fetch_all_trades e w) as [[l|x] w1] eqn:E; [|discriminate].
    intros H t Ht. inversion H; subst. clear H.
    apply filter_In in Ht as [Ht _].
    now apply (fetch_all_trades_keys e w l w').
Qed.

(** C10. Every record returned by [fetch_open_trades], and by
    [get_trades] for status open, has exactly the fields id, date,
    time, strike, side, price, position, status and contract, and no
    closed_at, whatever the stored rows hold; the records returned by
    [fetch_all_trades] and by [get_trades] for status closed, or for no
    status, have a closed_at field as well. *)
Theorem listed_record_fields :
  forall e w ts w' t,
    In t ts ->
    ((fetch_open_trades e w = (Ok ts, w') \/
      exists rh, get_trades (Some "open") rh e w = (Ok ts, w')) ->
     keys t = ["id"; "date"; "time"; "strike"; "side"; "price"; "position";
               "status"; "contract"] /\
     ~ In "closed_at" (keys t) /\ dict_get t "closed_at" = None) /\
    ((fetch_all_trades e w = (Ok ts, w') \/
      (exists rh, get_trades (Some "closed") rh e w = (Ok ts, w')) \/
      (exists rh, get_trades None rh e w = (Ok ts, w'))) ->
     keys t = ["id"; "date"; "time"; "strike"; "side"; "price"; "position";
               "status"; "closed_at"; "contract"] /\
     In "closed_at" (keys t) /\ dict_get t "closed_at" <> None).
Proof.
  intros e w ts w' t Ht.
  assert (Hget : forall d k, dict_get d k = None <-> ~ In k (keys d)).
  { induction d as [|[k' v] d IH]; intros k; cbn; [tauto|].
    destruct (String.eqb_spec k' k) as [->|Hn].
    - split; [discriminate|]. intros H. exfalso. apply H. now left.
    - rewrite IH. tauto. }
  split.
  - intros H.
    assert (Hk : keys t = open_keys).
    { destruct H as [H|(rh & H)].
      - now apply (fetch_open_trades_keys e w ts w').
      - now apply (fetch_open_trades_keys e w ts w'). }
    assert (Hn : ~ In "closed_at" (keys t)).
    { rewrite Hk. cbn. intros Hin.
      repeat (destruct Hin as [Hin|Hin]; [discriminate Hin|]). exact Hin. }
    split; [exact Hk|]. split; [exact Hn|]. now apply Hget.
  - intros H.
    assert (Hk : keys t = all_keys).
    { destruct H as [H|[(rh & H)|(rh & H)]].
      - now apply (fetch_all_trades_keys e w ts w').
      - now apply (get_trades_closed_keys rh e w ts w').
      - now apply (fetch_all_trades_keys e w ts w'). }
    assert (Hin : In "closed_at" (keys t)).
    { rewrite Hk. cbn. do 8 right. now left. }
    split; [exact Hk|]. split; [exact Hin|].
    intros Hnone. apply Hget in Hnone. contradiction.
Qed.

Lemma listed_record_fields_witness :
  keys (zip open_keys (Sql.cols9 (sample_row 2 "open"
          (Some "2026-11-03T09:00:01-05:00") (Some "BTC 9am"))))
  = ["id"; "date"; "time"; "strike"; "side"; "price"; "position"; "status";
     "contract"].
Proof.
  refine (proj1 (proj1 (listed_record_fields sample_env (world_of reopened)
            [zip open_keys (Sql.cols9 (sample_row 2 "open"
               (Some "2026-11-03T09:00:01-05:00") (Some "BTC 9am")))]
            (mkWorld reopened 0 1 []) _ (or_introl eq_refl))
            (or_introl _))).
  vm_compute. reflexivity.
Defined.

(** * Further properties *)

(** ** The expiration rule, continued *)

Lemma digit_val_bounds d : Re.is_digit d = true -> 0 <= Re.digit_val d <= 9.
Proof.
  unfold Re.is_digit, Re.digit_val. intros H.
  apply andb_prop in H as [H1 H2].
  apply N.leb_le in H1, H2. revert H1 H2.
  generalize (Re.code d). intros n H1 H2. lia.
Qed.

Lemma digits_ampm_bounds s h ap :
  Re.digits_ampm s = Some (h, ap) -> 0 <= h <= 99.
Proof.
  unfold Re.digits_ampm.
  destruct s as [|d1 s1]; [discriminate|].
  destruct (Re.is_digit d1) eqn:D1; [|discriminate].
  pose proof (digit_val_bounds d1 D1) as B1.
  assert (Hone : match Re.alt_ampm s1 with
                 | Some ap0 => Some (Re.digit_val d1, ap0)
                 | None => None
                 end = Some (h, ap) -> 0 <= h <= 99).
  { destruct (Re.alt_ampm s1); intros H; [|discriminate].
    assert (E : Re.digit_val d1 = h) by congruence. lia. }
  destruct s1 as [|d2 s2]; [exact Hone|].
  destruct (Re.is_digit d2) eqn:D2; [|exact Hone].
  pose proof (digit_val_bounds d2 D2) as B2.
  destruct (Re.alt_ampm s2); [|exact Hone].
  intros H.
  assert (E : 10 * Re.digit_val d1 + Re.digit_val d2 = h) by congruence. lia.
Qed.

Lemma spaces_then_bounds s : forall h ap,
  Re.spaces_then s = Some (h, ap) -> 0 <= h <= 99.
Proof.
  induction s as [|c s IH]; intros h ap H; [discriminate H|].
  cbn [Re.spaces_then] in H.
  destruct (Re.is_space c); [|now apply digits_ampm_bounds in H].
  destruct (Re.spaces_then s) as [[h' ap']|] eqn:E.
  - inversion H; subst. now apply (IH h ap).
  - now apply digits_ampm_bounds in H.
Qed.

Lemma search_bounds label : forall h ap,
  Re.search label = Some (h, ap) -> 0 <= h <= 99.
Proof.
  assert (Hm : forall s h ap, Re.match_here s = Some (h, ap) -> 0 <= h <= 99).
  { unfold Re.match_here. intros s h ap H.
    destruct (Re.lit_ci "BTC" s) as [[|c t]|]; try discriminate.
    destruct (Re.is_space c); [|discriminate]. now apply spaces_then_bounds in H. }
  induction label as [|c t IH]; intros h ap H.
  - cbn in H. discriminate.
  - cbn [Re.search] in H.
    destruct (Re.match_here (String c t)) as [[h' ap']|] eqn:E.
    + inversion H; subst. now apply Hm in E.
    + now apply IH in H.
Qed.

(** X1. On a matching label, [is_trade_expired] returns a boolean when
    the digits are at most 12 with pm or at most 23 with am, and raises
    [ValueError] for every other match; the digits always encode a
    number from 0 to 99. *)
Theorem is_trade_expired_raises_exactly_on_bad_hour :
  forall e w trade label h ap,
    dict_get trade "contract" = Some (VStr label) ->
    Re.search label = Some (h, ap) ->
    0 <= now_in e w -> Dt.day_of (now_in e w) < Dt.MAX_DAY ->
    0 <= h <= 99 /\
    ((ap = Re.PM /\ h <= 12 \/ ap = Re.AM /\ h <= 23) ->
     exists b, is_trade_expired trade e w = (Ok b, tick w)) /\
    ((ap = Re.PM /\ 13 <= h \/ ap = Re.AM /\ 24 <= h) ->
     is_trade_expired trade e w
     = (Raise (ValueError "hour must be in 0..23"), tick w)).
Proof.
  intros e w trade label h ap Hc Hs H0 Hd.
  pose proof (search_bounds _ _ _ Hs) as Hb.
  rewrite (is_trade_expired_match e w trade label h ap Hc Hs).
  split; [exact Hb|]. split.
  - intros Hv.
    assert (H24 : 0 <= to_24h h ap <= 23).
    { unfold to_24h. destruct Hv as [[-> Hv]|[-> Hv]];
        destruct (Z.eqb_spec h 12); cbn [negb]; lia. }
    unfold expired_at.
    destruct (Dt.replace_hour (now_in e w) (to_24h h ap)) as [x|x] eqn:Er.
    + destruct (add_one_day_ok _ _ _ H0 Hd Er) as [Ha _]. rewrite Ha.
      destruct ((x <? now_in e w) && _); eexists; reflexivity.
    + unfold Dt.replace_hour in Er.
      destruct (0 <=? to_24h h ap) eqn:E1; destruct (to_24h h ap <=? 23) eqn:E2;
        cbn in Er; try discriminate; lia.
  - intros Hv. unfold expired_at, Dt.replace_hour.
    assert (H24 : 23 < to_24h h ap).
    { unfold to_24h. destruct Hv as [[-> Hv]|[-> Hv]];
        destruct (Z.eqb_spec h 12); cbn [negb]; lia. }
    apply Z.leb_gt in H24. rewrite H24, andb_false_r. reflexivity.
Qed.

Lemma is_trade_expired_raises_exactly_on_bad_hour_witness :
  exists b, is_trade_expired [("contract", VStr "btc  12AM")] sample_env empty_world
            = (Ok b, tick empty_world).
Proof.
  refine (proj1 (proj2 (is_trade_expired_raises_exactly_on_bad_hour
            sample_env empty_world [("contract", VStr "btc  12AM")] "btc  12AM"
            12 Re.AM eq_refl eq_refl _ _)) (or_intror (conj eq_refl _)));
    vm_compute; congruence.
Defined.

(** X2. On a matching label with a valid hour, [is_trade_expired]
    returns true exactly during the 3600 seconds that start at that
    hour of the current day, both ends included: before the hour, and
    from 3600 seconds after it until midnight, it returns false. *)
Theorem is_trade_expired_true_for_one_hour :
  forall e w trade label h ap,
    dict_get trade "contract" = Some (VStr label) ->
    Re.search label = Some (h, ap) ->
    0 <= now_in e w -> Dt.day_of (now_in e w) < Dt.MAX_DAY ->
    0 <= to_24h h ap <= 23 ->
    let now := now_in e w in
    let expiration := hour_today now (to_24h h ap) in
    is_trade_expired trade e w
    = (Ok ((expiration <=? now) && (now <=? expiration + 3600 * Dt.US_PER_SECOND)),
       tick w).
Proof.
  intros e w trade label h ap Hc Hs H0 Hd Hh now expiration.
  rewrite (is_trade_expired_match e w trade label h ap Hc Hs). f_equal.
  assert (Er : Dt.replace_hour now (to_24h h ap) = Ok expiration).
  { unfold Dt.replace_hour.
    destruct (0 <=? to_24h h ap) eqn:E1; destruct (to_24h h ap <=? 23) eqn:E2;
      cbn; try reflexivity; lia. }
  destruct (add_one_day_ok _ _ _ H0 Hd Er) as [Ha Hlt].
  change (now < expiration + Dt.US_PER_DAY) in Hlt.
  unfold expired_at, Dt.gap_exceeds_seconds. fold now. rewrite Er.
  destruct (expiration <? now) eqn:E1;
    destruct (3600 * Dt.US_PER_SECOND <? now - expiration) eqn:E2; cbn [andb];
    rewrite ?Ha; f_equal;
    destruct (expiration <=? now) eqn:E3;
    destruct (now <=? expiration + 3600 * Dt.US_PER_SECOND) eqn:E4;
    destruct (expiration + Dt.US_PER_DAY <=? now) eqn:E5; cbn; try reflexivity;
    rewrite ?Z.ltb_lt, ?Z.ltb_ge, ?Z.leb_le, ?Z.leb_gt in *;
    unfold Dt.US_PER_DAY, Dt.US_PER_HOUR, Dt.US_PER_SECOND in *; lia.
Qed.

Lemma is_trade_expired_true_for_one_hour_witness :
  is_trade_expired [("contract", VStr "BTC 6am")] sample_env empty_world
  = (Ok true, tick empty_world).
Proof.
  refine (is_trade_expired_true_for_one_hour sample_env empty_world
            [("contract", VStr "BTC 6am")] "BTC 6am" 6 Re.AM
            eq_refl eq_refl _ _ _); vm_compute; try split; congruence.
Defined.

(** X3. [re.search] uses the leftmost match: the search returns [r]
    exactly when the label splits into a part with no match starting
    in it, followed by a text at whose head the pattern matches with
    groups [r]. *)
Theorem search_takes_leftmost_match :
  forall label r,
    Re.search label = Some r <->
    exists pre s,
      label = (pre ++ s)%string /\ Re.match_here s = Some r /\
      forall p1 p2, pre = (p1 ++ p2)%string -> p2 <> "" ->
                    Re.match_here (p2 ++ s) = None.
Proof.
  intros label r. split.
  - revert r. induction label as [|c t IH]; intros r H; [discriminate H|].
    cbn [Re.search] in H.
    destruct (Re.match_here (String c t)) as [r'|] eqn:E.
    + exists "", (String c t). inversion H; subst.
      split; [reflexivity|]. split; [exact E|].
      intros [|a p1] [|b p2] Hp Hn; try discriminate; congruence.
    + destruct (IH r H) as (pre & s & -> & Hm & Hno).
      exists (String c pre), s. split; [reflexivity|]. split; [exact Hm|].
      intros [|a p1] p2 Hp Hn.
      * cbn in Hp. subst p2. exact E.
      * cbn in Hp. inversion Hp; subst. now apply (Hno p1 p2).
  - intros (pre & s & -> & Hm & Hno). induction pre as [|c pre IH].
    + cbn [append]. destruct s as [|a s]; [discriminate Hm|].
      cbn [Re.search]. now rewrite Hm.
    + cbn [append Re.search].
      assert (E : Re.match_here (String c pre ++ s) = None)
        by (apply (Hno "" (String c pre) eq_refl); discriminate).
      cbn [append] in E. rewrite E.
      apply IH. intros p1 p2 Hp Hn. apply (Hno (String c p1) p2); [|exact Hn].
      cbn. now rewrite Hp.
Qed.

Lemma search_takes_leftmost_match_witness :
  Re.search "BTC 5xm, btc 7PM, BTC 9am" = Some (7, Re.PM).
Proof.
  apply (proj2 (search_takes_leftmost_match "BTC 5xm, btc 7PM, BTC 9am" (7, Re.PM))).
  exists "BTC 5xm, ", "btc 7PM, BTC 9am".
  split; [reflexivity|]. split; [reflexivity|].
  intros p1 p2 Hp Hn.
  repeat (destruct p1 as [|? p1];
          [cbn in Hp; subst p2; reflexivity
          |cbn in Hp; injection Hp as _ Hp]).
  destruct p1; cbn in Hp; [subst p2; congruence|discriminate Hp].
Defined.

(** ** Ids *)

Lemma insert_trade_runs e w t :
  sqlite_error e (stmts w) = None ->
  accepted t (db w) ->
  insert_trade t e w =
    (Ok (seq (db w) + 1),
     stepped (mkStore (rows (db w) ++ [new_row (seq (db w) + 1) t])
                      (seq (db w) + 1)) w).
Proof.
  intros H (Hp & Hn & Hs).
  unfold insert_trade, bind, bind_int, lift, ret, execute_checked,
    Sql.insert_checked, new_row, stored_price.
  destruct (Float64.div (nt_price t) 100) as [q|]; [|congruence].
  rewrite Hn. cbn [fst snd stmts db]. rewrite H, Hs. reflexivity.
Qed.


(** The price is stored as Python computes it: 1e15 for the price
    10^17 + 1, and none for 10^400, whose quotient is beyond
    binary64. *)
Example insert_trade_rounds_price :
  Float64.div (inject_Z (10 ^ 17 + 1)) 100 = Some (inject_Z (10 ^ 15)) /\
  Float64.div (inject_Z (10 ^ 400)) 100 = None.
Proof. split; vm_compute; reflexivity. Qed.





Lemma sorted_snoc l x :
  StronglySorted Z.lt l -> Forall (fun y => y < x) l ->
  StronglySorted Z.lt (l ++ [x]).
Proof.
  induction 1 as [|y l Hs IH Hy]; intros Hx; cbn.
  - repeat constructor.
  - inversion Hx; subst. constructor; [now apply IH|].
    apply Forall_app. split; [exact Hy|]. now repeat constructor.
Qed.

Lemma sorted_filter_ids (p : Row -> bool) l :
  StronglySorted Z.lt (map id l) -> StronglySorted Z.lt (map id (filter p l)).
Proof.
  induction l as [|x l IH]; cbn; intros H; [constructor|].
  inversion H as [|? ? Hs Hx]; subst.
  destruct (p x); [|now apply IH]. cbn. constructor; [now apply IH|].
  rewrite Forall_forall in *. intros y Hy. apply Hx.
  apply in_map_iff in Hy as (r & <- & Hr). apply filter_In in Hr as [Hr _].
  now apply in_map.
Qed.

Lemma ids_in_order_step e w o :
  ids_in_order (db w) ->
  ids_in_order (store_after e w o) /\ seq (db w) <= seq (store_after e w o).
Proof.
  intros [Hs Hb]. unfold store_after.
  destruct (refused e w o); [split; [now split|lia]|].
  destruct o as [t|j s ca|j].
  - unfold Sql.insert, ids_in_order. cbn [fst rows seq].
    rewrite map_app. cbn [map id]. split; [split|lia].
    + apply sorted_snoc; [exact Hs|].
      eapply Forall_impl; [|exact Hb]. cbn. intros; lia.
    + apply Forall_app. split.
      * eapply Forall_impl; [|exact Hb]. cbn. intros; lia.
      * repeat constructor. lia.
  - destruct (String.eqb s "closed");
      unfold Sql.update_status_closed_at, Sql.update_status, ids_in_order;
      cbn [rows seq]; rewrite ids_kept by reflexivity; (split; [now split|lia]).
  - unfold Sql.delete, ids_in_order. cbn [rows seq]. split; [split|lia].
    + now apply sorted_filter_ids.
    + rewrite Forall_forall in *. intros y Hy. apply Hb.
      apply in_map_iff in Hy as (r & <- & Hr). apply filter_In in Hr as [Hr _].
      now apply in_map.
Qed.

Lemma sorted_lt_nodup l : StronglySorted Z.lt l -> NoDup l.
Proof.
  induction 1 as [|x l Hs IH Hx]; constructor; [|exact IH].
  intros Hin. rewrite Forall_forall in Hx. specialize (Hx x Hin). lia.
Qed.

(** X5. After any sequence of creates, status updates and deletes,
    failing or not, the ids of the table are still strictly increasing
    in table order, hence all different, none is above the counter,
    and the counter has not gone down. *)
Theorem ids_stay_in_order :
  forall os e w,
    ids_in_order (db w) ->
    ids_in_order (db (after_ops os e w)) /\
    NoDup (map id (rows (db (after_ops os e w)))) /\
    seq (db w) <= seq (db (after_ops os e w)).
Proof.
  assert (Hmain : forall os e w, ids_in_order (db w) ->
            ids_in_order (db (after_ops os e w)) /\
            seq (db w) <= seq (db (after_ops os e w))).
  { induction os as [|o os IH]; intros e w H; [split; [exact H|cbn; lia]|].
    cbn [after_ops]. destruct (ids_in_order_step e w o H) as [H1 H2].
    rewrite <- run_op_db in H1, H2.
    destruct (IH e _ H1) as [H3 H4]. split; [exact H3|lia]. }
  intros os e w H. destruct (Hmain os e w H) as [H1 H2].
  split; [exact H1|]. split; [|exact H2].
  apply sorted_lt_nodup. apply H1.
Qed.

Lemma ids_stay_in_order_witness :
  NoDup (map id (rows (db (after_ops
           [Create (sample_trade None None); Delete 3;
            Create (sample_trade (Some "closed") None); SetStatus 1 "open" None]
           locked_once_env (world_of two_trades))))).
Proof.
  refine (proj1 (proj2 (ids_stay_in_order _ locked_once_env (world_of two_trades) _))).
  split; repeat constructor; vm_compute; congruence.
Defined.

(** X6. An id that was issued and is no longer in the table never
    comes back: whatever operations follow, failing or not, no row is
    found under it. *)
Theorem deleted_id_is_never_reused :
  forall os e w i,
    i <= seq (db w) ->
    find_row i (db w) = None ->
    find_row i (db (after_ops os e w)) = None.
Proof.
  assert (Hstep : forall e w o i, i <= seq (db w) -> find_row i (db w) = None ->
            i <= seq (store_after e w o) /\ find_row i (store_after e w o) = None).
  { intros e w o i Hi Hn. unfold store_after.
    destruct (refused e w o); [now split|].
    destruct o as [t|j s ca|j].
    - split; [unfold Sql.insert; cbn [fst seq]; lia|].
      now rewrite find_row_insert.
    - destruct (String.eqb s "closed");
        unfold Sql.update_status_closed_at, Sql.update_status, find_row in *;
        cbn [rows seq]; rewrite find_row_update by reflexivity;
        rewrite Hn; now split.
    - split; [exact Hi|].
      destruct (find_row i (Sql.delete j (db w))) as [r|] eqn:E; [|reflexivity].
      apply find_row_delete in E. congruence. }
  induction os as [|o os IH]; intros e w i Hi Hn; [exact Hn|].
  cbn [after_ops]. destruct (Hstep e w o i Hi Hn) as [H1 H2].
  rewrite <- run_op_db in H1, H2. now apply IH.
Qed.

Lemma deleted_id_is_never_reused_witness :
  find_row 2 (db (after_ops
     [Create (sample_trade None None); SetStatus 2 "closed" None;
      Create (sample_trade None None)]
     sample_env
     (after_ops [Delete 2] sample_env (world_of two_trades)))) = None.
Proof.
  apply deleted_id_is_never_reused; vm_compute; congruence.
Defined.

(** ** Listings, continued *)

Lemma fetch_open_trades_runs e w :
  sqlite_error e (stmts w) = None ->
  fetch_open_trades e w
  = (Ok (map open_record (Sql.select_open (db w))), stepped (db w) w).
Proof.
  intros H. unfold fetch_open_trades, bind, execute, ret. rewrite H. cbn.
  now rewrite map_map.
Qed.

Lemma fetch_all_trades_runs e w :
  sqlite_error e (stmts w) = None ->
  fetch_all_trades e w
  = (Ok (map full_record (Sql.select_all (db w))), stepped (db w) w).
Proof.
  intros H. unfold fetch_all_trades, bind, execute, ret. rewrite H. cbn.
  now rewrite map_map.
Qed.

Lemma fetch_open_trades_reads_only e w :
  db (snd (fetch_open_trades e w)) = db w /\
  trace (snd (fetch_open_trades e w)) = trace w.
Proof.
  unfold fetch_open_trades, bind, execute, ret.
  destruct (sqlite_error e (stmts w)); split; reflexivity.
Qed.

Lemma fetch_all_trades_reads_only e w :
  db (snd (fetch_all_trades e w)) = db w /\
  trace (snd (fetch_all_trades e w)) = trace w.
Proof.
  unfold fetch_all_trades, bind, execute, ret.
  destruct (sqlite_error e (stmts w)); split; reflexivity.
Qed.

Lemma fetch_recent_closed_trades_reads_only h e w :
  db (snd (fetch_recent_closed_trades h e w)) = db w /\
  trace (snd (fetch_recent_closed_trades h e w)) = trace w.
Proof.
  unfold fetch_recent_closed_trades, bind, utcnow, lift, execute, ret.
  destruct (Dt.in_range _); [|split; reflexivity]. cbn [stmts].
  destruct (sqlite_error e (stmts w)); split; reflexivity.
Qed.

(** X7. [get_trades] only reads: for every status and [recent_hours],
    whether it returns or raises, the table and the output are as they
    were before the call. *)
Theorem get_trades_reads_only :
  forall status recent_hours e w,
    db (snd (get_trades status recent_hours e w)) = db w /\
    trace (snd (get_trades status recent_hours e w)) = trace w.
Proof.
  intros status rh e w. unfold get_trades.
  destruct status as [s|]; [|apply fetch_all_trades_reads_only].
  destruct (String.eqb s "open"); [apply fetch_open_trades_reads_only|].
  destruct (String.eqb s "closed" && truthy _);
    [apply fetch_recent_closed_trades_reads_only|].
  destruct (String.eqb s "closed"); [|apply fetch_all_trades_reads_only].
  unfold bind, ret.
  pose proof (fetch_all_trades_reads_only e w) as H.
  destruct (fetch_all_trades e w) as [[l|x] w1]; exact H.
Qed.

Lemma record_has_id_open i r : record_has_id i (open_record r) = (id r =? i).
Proof. reflexivity. Qed.

Lemma record_has_id_full i r : record_has_id i (full_record r) = (id r =? i).
Proof. reflexivity. Qed.

Lemma filter_map_records {A B} (f : A -> B) (p : B -> bool) (q : A -> bool) l :
  (forall a, p (f a) = q a) -> filter p (map f l) = map f (filter q l).
Proof.
  intros H. induction l as [|a l IH]; [reflexivity|]. cbn. rewrite H.
  destruct (q a); cbn; now rewrite IH.
Qed.

Lemma select_open_after_close i s t st :
  s <> "open" ->
  Sql.select_open (Sql.update_status_closed_at s t i st)
  = filter (fun r => negb (id r =? i)) (Sql.select_open st).
Proof.
  intros Hs. unfold Sql.select_open, Sql.update_status_closed_at. cbn [rows].
  induction (rows st) as [|r l IH]; [reflexivity|]. cbn [map filter].
  unfold Sql.where_id at 1 2. destruct (id r =? i) eqn:E.
  - unfold Sql.is_status at 1. cbn [Sql.set_status_closed_at status].
    apply String.eqb_neq in Hs. rewrite Hs.
    destruct (Sql.is_status "open" r); cbn [filter]; rewrite ?E; cbn [negb];
      exact IH.
  - destruct (Sql.is_status "open" r); cbn [filter]; rewrite ?E; cbn [negb];
      now rewrite IH.
Qed.

Lemma filter_other_ids i l :
  Forall (fun r => fits_int64 (id r) = true) l -> fits_int64 i = false ->
  filter (fun r => negb (id r =? i)) l = l.
Proof.
  intros Hf Hi. induction Hf as [|r l Hr _ IH]; [reflexivity|]. cbn.
  destruct (Z.eqb_spec (id r) i) as [E|E]; [congruence|]. cbn. now rewrite IH.
Qed.

Lemma ids_fit_filter (p : Row -> bool) l :
  Forall (fun r => fits_int64 (id r) = true) l ->
  Forall (fun r => fits_int64 (id r) = true) (filter p l).
Proof.
  intros H. apply Forall_forall. intros r Hr. apply filter_In in Hr as [Hr _].
  rewrite Forall_forall in H. now apply H.
Qed.

(** X8. Closing a trade takes it off the open listing and nothing
    else: on a table whose ids SQLite can hold, when SQLite executes
    both statements, [fetch_open_trades] after [update_trade_status]
    to closed returns what it returned before, in the same order,
    without the records of that id. *)
Theorem closing_takes_trade_off_open_listing :
  forall e w i ca,
    ids_fit (db w) ->
    sqlite_error e (stmts w) = None ->
    sqlite_error e (S (stmts w)) = None ->
    exists before,
      fst (fetch_open_trades e w) = Ok before /\
      fst (fetch_open_trades e (snd (update_trade_status i "closed" ca e w)))
      = Ok (filter (fun t => negb (record_has_id i t)) before).
Proof.
  intros e w i ca Hfit H0 H1. eexists. rewrite (fetch_open_trades_runs e w H0).
  split; [reflexivity|].
  destruct (fits_int64 i) eqn:Hi.
  - rewrite (update_trade_status_runs e w i "closed" ca H0 Hi).
    cbn [String.eqb Ascii.eqb Bool.eqb].
    destruct ca as [t|]; cbn [snd]; rewrite fetch_open_trades_runs by exact H1;
      cbn [fst db]; f_equal;
      rewrite select_open_after_close by discriminate;
      symmetry; apply filter_map_records; intros r; now rewrite record_has_id_open.
  - destruct (update_trade_status_refuses e w i "closed" ca Hi) as (_ & Hd & Hs & _).
    rewrite fetch_open_trades_runs by (rewrite Hs; exact H0).
    cbn [fst]. rewrite Hd. f_equal.
    rewrite (filter_map_records open_record _ (fun r => negb (id r =? i)))
      by (intros r; now rewrite record_has_id_open).
    f_equal. symmetry. apply filter_other_ids; [|exact Hi].
    now apply ids_fit_filter.
Qed.

Lemma closing_takes_trade_off_open_listing_witness :
  fst (fetch_open_trades sample_env
         (snd (update_trade_status 1 "closed" None sample_env (world_of two_due))))
  = Ok [open_record (sample_row 2 "open" None (Some "BTC 7am"))].
Proof.
  destruct (closing_takes_trade_off_open_listing sample_env (world_of two_due) 1 None
              ltac:(repeat constructor) eq_refl eq_refl) as (before & Hb & Ha).
  rewrite Ha. vm_compute in Hb. injection Hb as <-. reflexivity.
Defined.

(** X9. A trade whose numbers [insert_trade] accepts joins the open
    listing at its end when its status is open, which is the default,
    and leaves the listing as it was otherwise. *)
Theorem created_trade_joins_open_listing :
  forall e w t,
    sqlite_error e (stmts w) = None ->
    sqlite_error e (S (stmts w)) = None ->
    accepted t (db w) ->
    exists before,
      fst (fetch_open_trades e w) = Ok before /\
      fst (fetch_open_trades e (snd (insert_trade t e w)))
      = Ok (before ++
            match nt_status t with
            | None => [open_record (new_row (seq (db w) + 1) t)]
            | Some s => if String.eqb s "open"
                        then [open_record (new_row (seq (db w) + 1) t)]
                        else []
            end)%list.
Proof.
  intros e w t H0 H1 Hacc. eexists. rewrite (fetch_open_trades_runs e w H0).
  split; [reflexivity|].
  rewrite (insert_trade_runs e w t H0 Hacc). cbn [snd].
  rewrite fetch_open_trades_runs by exact H1. cbn [fst stepped db]. f_equal.
  unfold Sql.select_open. cbn [rows]. rewrite filter_app, map_app. f_equal.
  cbn [filter]. unfold Sql.is_status, new_row. cbn [status].
  destruct (nt_status t) as [s|]; [|reflexivity].
  destruct (String.eqb s "open"); reflexivity.
Qed.

Lemma created_trade_joins_open_listing_witness :
  fst (fetch_open_trades sample_env
         (snd (insert_trade (sample_trade None (Some "BTC 2pm")) sample_env
                 (world_of two_trades))))
  = Ok [open_record (sample_row 1 "open" None (Some "BTC 7am"));
        open_record (new_row 3 (sample_trade None (Some "BTC 2pm")))].
Proof.
  destruct (created_trade_joins_open_listing sample_env (world_of two_trades)
              (sample_trade None (Some "BTC 2pm")) eq_refl eq_refl
              ltac:(repeat split; vm_compute; discriminate))
    as (before & Hb & Ha).
  rewrite Ha. vm_compute in Hb. injection Hb as <-. reflexivity.
Defined.

Section FilterOrder.
Context {A : Type} (ge : A -> A -> bool) (p : A -> bool).
Hypothesis ge_total : forall a b, ge a b = true \/ ge b a = true.
Hypothesis ge_trans : forall a b c, ge a b = true -> ge b c = true -> ge a c = true.

Lemma insert_desc_head x l :
  Forall (fun y => ge x y = true) l -> Sql.insert_desc ge x l = x :: l.
Proof.
  destruct l as [|y l]; [reflexivity|]. intros H. inversion H; subst.
  cbn. now rewrite H2.
Qed.

Lemma filter_insert_desc x l :
  StronglySorted (fun a b => ge a b = true) l ->
  filter p (Sql.insert_desc ge x l)
  = if p x then Sql.insert_desc ge x (filter p l) else filter p l.
Proof.
  induction 1 as [|y l Hs IH Hy]; cbn.
  - destruct (p x); reflexivity.
  - destruct (ge x y) eqn:E.
    + cbn [filter]. destruct (p x); [|reflexivity].
      symmetry. apply (insert_desc_head x (filter p (y :: l))).
      apply Forall_forall. intros z Hz. apply filter_In in Hz as [Hz _].
      destruct Hz as [<-|Hz]; [exact E|].
      rewrite Forall_forall in Hy. apply ge_trans with y; auto.
    + cbn [filter]. rewrite IH.
      destruct (p y), (p x); cbn; rewrite ?E; reflexivity.
Qed.

Lemma filter_order_desc l :
  filter p (Sql.order_desc ge l) = Sql.order_desc ge (filter p l).
Proof.
  induction l as [|x l IH]; [reflexivity|]. cbn.
  rewrite filter_insert_desc by now apply order_desc_sorted.
  rewrite IH. destruct (p x); reflexivity.
Qed.
End FilterOrder.

Lemma id_order_total (a b : Row) :
  (id b <=? id a) = true \/ (id a <=? id b) = true.
Proof. rewrite !Z.leb_le. lia. Qed.

Lemma id_order_trans (a b c : Row) :
  (id b <=? id a) = true -> (id c <=? id b) = true -> (id c <=? id a) = true.
Proof. rewrite !Z.leb_le. lia. Qed.

Lemma select_all_filter p st :
  filter p (Sql.select_all st)
  = Sql.order_desc (fun a b => id b <=? id a) (filter p (rows st)).
Proof.
  unfold Sql.select_all.
  apply filter_order_desc; [exact id_order_total|exact id_order_trans].
Qed.

(** X10. A deleted trade leaves the full listing and nothing else
    does: on a table whose ids SQLite can hold, when SQLite executes
    both statements, [fetch_all_trades] after [delete_trade] returns
    what it returned before, in the same order, without the records of
    that id. *)
Theorem deleting_takes_trade_off_full_listing :
  forall e w i,
    ids_fit (db w) ->
    sqlite_error e (stmts w) = None ->
    sqlite_error e (S (stmts w)) = None ->
    exists before,
      fst (fetch_all_trades e w) = Ok before /\
      fst (fetch_all_trades e (snd (delete_trade i e w)))
      = Ok (filter (fun t => negb (record_has_id i t)) before).
Proof.
  intros e w i Hfit H0 H1. eexists. rewrite (fetch_all_trades_runs e w H0).
  split; [reflexivity|].
  rewrite (filter_map_records full_record _ (fun r => negb (id r =? i)))
    by (intros r; now rewrite record_has_id_full).
  destruct (fits_int64 i) eqn:Hi.
  - rewrite (delete_trade_runs e w i H0 Hi). cbn [snd].
    rewrite fetch_all_trades_runs by exact H1. cbn [fst db]. f_equal.
    f_equal. rewrite select_all_filter. reflexivity.
  - rewrite (delete_trade_refuses e w i Hi). cbn [snd].
    rewrite fetch_all_trades_runs by exact H0. cbn [fst]. f_equal. f_equal.
    rewrite select_all_filter. unfold Sql.select_all. f_equal.
    symmetry. now apply filter_other_ids.
Qed.

Lemma deleting_takes_trade_off_full_listing_witness :
  fst (fetch_all_trades sample_env
         (snd (delete_trade 1 sample_env (world_of two_due))))
  = Ok [full_record (sample_row 2 "open" None (Some "BTC 7am"))].
Proof.
  destruct (deleting_takes_trade_off_full_listing sample_env (world_of two_due) 1
              ltac:(repeat constructor) eq_refl eq_refl) as (before & Hb & Ha).
  rewrite Ha. vm_compute in Hb. injection Hb as <-. reflexivity.
Defined.

(** X11. When SQLite executes the statement, [fetch_all_trades] returns
    one record for every row of the table, carrying the row's ten
    fields, by descending id. *)
Theorem fetch_all_trades_lists_every_row_by_descending_id :
  forall e w,
    sqlite_error e (stmts w) = None ->
    exists rs,
      fst (fetch_all_trades e w) = Ok (map full_record rs) /\
      Permutation (rows (db w)) rs /\
      StronglySorted (fun a b => id b <= id a) rs.
Proof.
  intros e w H. exists (Sql.select_all (db w)).
  rewrite (fetch_all_trades_runs e w H).
  split; [reflexivity|apply select_all_sorted].
Qed.

Lemma fetch_all_trades_lists_every_row_by_descending_id_witness :
  exists rs,
    fst (fetch_all_trades sample_env (world_of two_trades)) = Ok (map full_record rs) /\
    Permutation (rows two_trades) rs /\
    StronglySorted (fun a b => id b <= id a) rs.
Proof.
  exact (fetch_all_trades_lists_every_row_by_descending_id sample_env
           (world_of two_trades) eq_refl).
Defined.

Lemma status_field_closed r :
  match dict_get (full_record r) "status" with
  | Some (VStr v) => String.eqb v "closed"
  | _ => false
  end = is_closed r.
Proof. reflexivity. Qed.

(** X12. [get_trades] with status closed and no [recent_hours], or a
    [recent_hours] of 0, returns exactly the rows whose status is
    closed, one record each, by descending id; a [recent_hours] of 0
    is not a window of no length. *)
Theorem get_trades_closed_lists_closed_rows :
  forall e w recent_hours,
    sqlite_error e (stmts w) = None ->
    recent_hours = None \/ recent_hours = Some 0 ->
    exists rs,
      fst (get_trades (Some "closed") recent_hours e w) = Ok (map full_record rs) /\
      Permutation (filter is_closed (rows (db w))) rs /\
      StronglySorted (fun a b => id b <= id a) rs /\
      Forall (fun r => status r = "closed") rs.
Proof.
  intros e w rh H Hrh.
  exists (filter is_closed (Sql.select_all (db w))).
  assert (Hg : fst (get_trades (Some "closed") rh e w)
               = Ok (map full_record (filter is_closed (Sql.select_all (db w))))).
  { unfold get_trades. cbn [String.eqb Ascii.eqb Bool.eqb andb].
    destruct Hrh as [->| ->]; cbn [truthy Z.eqb negb];
      unfold bind, ret; rewrite (fetch_all_trades_runs e w H); cbn [fst];
      f_equal; apply filter_map_records; intros r; apply status_field_closed. }
  split; [exact Hg|]. rewrite select_all_filter.
  split; [apply order_desc_perm|]. split.
  - assert (Hs : StronglySorted (fun a b : Row => (id b <=? id a) = true)
                   (Sql.order_desc (fun a b => id b <=? id a)
                      (filter is_closed (rows (db w))))).
    { apply order_desc_sorted; [exact id_order_total|exact id_order_trans]. }
    induction Hs as [|a l _ IH Hf]; constructor; [exact IH|].
    eapply Forall_impl; [|exact Hf]. cbn. intros b Hb. now apply Z.leb_le.
  - rewrite <- select_all_filter. apply Forall_forall. intros r Hr.
    apply filter_In in Hr as [_ Hr]. now apply String.eqb_eq.
Qed.

Lemma get_trades_closed_lists_closed_rows_witness :
  exists rs,
    fst (get_trades (Some "closed") (Some 0) sample_env (world_of two_trades))
    = Ok (map full_record rs) /\
    Permutation (filter is_closed (rows two_trades)) rs /\
    StronglySorted (fun a b => id b <= id a) rs /\
    Forall (fun r => status r = "closed") rs.
Proof.
  exact (get_trades_closed_lists_closed_rows sample_env (world_of two_trades)
           (Some 0) eq_refl (or_intror eq_refl)).
Defined.

(** X13. [get_trades] with a status that is neither open nor closed,
    whatever the case of its letters, is [get_trades] with no status:
    the filter is ignored, [recent_hours] as well, and the full listing
    is returned. *)
Theorem get_trades_ignores_unknown_status :
  forall e w s recent_hours,
    s <> "open" -> s <> "closed" ->
    get_trades (Some s) recent_hours e w = get_trades None None e w /\
    get_trades (Some s) recent_hours e w = fetch_all_trades e w.
Proof.
  intros e w s rh Ho Hc. unfold get_trades.
  apply String.eqb_neq in Ho, Hc. rewrite Ho, Hc. cbn [andb].
  split; reflexivity.
Qed.

Lemma get_trades_ignores_unknown_status_witness :
  get_trades (Some "Closed") (Some 24) sample_env (world_of two_trades)
  = fetch_all_trades sample_env (world_of two_trades).
Proof.
  apply (proj2 (get_trades_ignores_unknown_status sample_env (world_of two_trades)
                  "Closed" (Some 24) ltac:(discriminate) ltac:(discriminate))).
Defined.

(** *** The window of [fetch_recent_closed_trades] *)

Lemma string_leb_trans a : forall b c,
  String.leb a b = true -> String.leb b c = true -> String.leb a c = true.
Proof.
  unfold String.leb.
  induction a as [|x a IH]; intros [|y b] [|z c]; cbn; try congruence.
  unfold Ascii.compare.
  destruct (N.compare_spec (N_of_ascii x) (N_of_ascii y)) as [Exy|Exy|Exy];
    destruct (N.compare_spec (N_of_ascii y) (N_of_ascii z)) as [Eyz|Eyz|Eyz];
    destruct (N.compare_spec (N_of_ascii x) (N_of_ascii z)) as [Exz|Exz|Exz];
    try congruence; try lia.
  apply IH.
Qed.

Lemma closed_at_order_total a b :
  Sql.closed_at_order a b = true \/ Sql.closed_at_order b a = true.
Proof.
  unfold Sql.closed_at_order, Sql.text_ge.
  destruct (closed_at a), (closed_at b); auto. apply String.leb_total.
Qed.

Lemma closed_at_order_trans a b c :
  Sql.closed_at_order a b = true -> Sql.closed_at_order b c = true ->
  Sql.closed_at_order a c = true.
Proof.
  unfold Sql.closed_at_order, Sql.text_ge.
  destruct (closed_at a), (closed_at b), (closed_at c); try congruence.
  intros H1 H2. now apply string_leb_trans with s0.
Qed.

(** X14. When the cutoff is a representable instant and SQLite
    executes the statement, [fetch_recent_closed_trades] returns one
    record for every row whose status is closed and whose [closed_at]
    text is not below the ISO text of the UTC clock minus [hours], and
    for no other row, by descending [closed_at] text. *)
Theorem fetch_recent_closed_trades_lists_by_text :
  forall e w hours,
    sqlite_error e (stmts w) = None ->
    Dt.in_range (clock e (reads w) - hours * Dt.US_PER_HOUR) = true ->
    let cutoff := Fmt.isoformat (clock e (reads w) - hours * Dt.US_PER_HOUR) in
    exists rs,
      fst (fetch_recent_closed_trades hours e w) = Ok (map full_record rs) /\
      Permutation
        (filter (fun r => is_closed r && Sql.closed_at_ge cutoff r) (rows (db w))) rs /\
      StronglySorted (fun a b => Sql.closed_at_order a b = true) rs /\
      Forall (fun r => status r = "closed" /\
                       exists c, closed_at r = Some c /\ String.leb cutoff c = true) rs.
Proof.
  intros e w hours He Hr cutoff.
  exists (Sql.select_recent_closed cutoff (db w)). split; [|split; [|split]].
  - unfold fetch_recent_closed_trades, bind, utcnow, lift, execute, ret.
    rewrite Hr. cbn [stmts]. rewrite He. cbn. now rewrite map_map.
  - apply order_desc_perm.
  - apply order_desc_sorted;
      [exact closed_at_order_total|exact closed_at_order_trans].
  - apply Forall_forall. intros r Hin.
    unfold Sql.select_recent_closed in Hin.
    apply (Permutation_in _ (Permutation_sym (order_desc_perm _ _))) in Hin.
    apply filter_In in Hin as [_ Hin]. apply andb_prop in Hin as [H1 H2].
    split; [now apply String.eqb_eq|].
    unfold Sql.closed_at_ge, Sql.text_ge in H2.
    destruct (closed_at r) as [c|]; [|discriminate]. eauto.
Qed.

Lemma fetch_recent_closed_trades_lists_by_text_witness :
  exists rs,
    fst (fetch_recent_closed_trades 24 sample_env (world_of two_trades))
    = Ok (map full_record rs) /\
    Permutation
      (filter (fun r => is_closed r
                        && Sql.closed_at_ge (Fmt.isoformat (noon_utc - 24 * Dt.US_PER_HOUR)) r)
         (rows two_trades)) rs /\
    StronglySorted (fun a b => Sql.closed_at_order a b = true) rs /\
    Forall (fun r => status r = "closed" /\
                     exists c, closed_at r = Some c /\
                       String.leb (Fmt.isoformat (noon_utc - 24 * Dt.US_PER_HOUR)) c
                       = true) rs.
Proof.
  exact (fetch_recent_closed_trades_lists_by_text sample_env (world_of two_trades)
           24 eq_refl eq_refl).
Defined.

(** X15. When [hours] is a number of hours a [timedelta] can hold and
    the UTC clock minus [hours] falls outside the years 1 to 9999,
    [fetch_recent_closed_trades], and [get_trades] for status closed
    with that [recent_hours], raise [OverflowError] after reading the
    clock and before any statement: no listing is returned. *)
Theorem fetch_recent_closed_trades_overflows :
  forall e w hours,
    Z.abs hours <= 24 * 999999999 ->
    hours <> 0 ->
    Dt.in_range (clock e (reads w) - hours * Dt.US_PER_HOUR) = false ->
    fetch_recent_closed_trades hours e w
    = (Raise (OverflowError "date value out of range"), tick w) /\
    get_trades (Some "closed") (Some hours) e w
    = (Raise (OverflowError "date value out of range"), tick w).
Proof.
  intros e w hours _ Hn Hr.
  assert (H : fetch_recent_closed_trades hours e w
              = (Raise (OverflowError "date value out of range"), tick w)).
  { unfold fetch_recent_closed_trades, bind, utcnow, lift. rewrite Hr. reflexivity. }
  split; [exact H|]. unfold get_trades.
  cbn [String.eqb Ascii.eqb Bool.eqb andb truthy].
  apply Z.eqb_neq in Hn. rewrite Hn. exact H.
Qed.

Lemma fetch_recent_closed_trades_overflows_witness :
  get_trades (Some "closed") (Some 20000000) sample_env (world_of two_trades)
  = (Raise (OverflowError "date value out of range"), tick (world_of two_trades)).
Proof.
  apply (fetch_recent_closed_trades_overflows sample_env (world_of two_trades)
           20000000); vm_compute; congruence.
Defined.

(** ** The routes *)








(** ** The monitor, continued *)

Lemma is_trade_expired_keeps e w trade :
  db (snd (is_trade_expired trade e w)) = db w /\
  stmts (snd (is_trade_expired trade e w)) = stmts w /\
  trace (snd (is_trade_expired trade e w)) = trace w.
Proof.
  unfold is_trade_expired.
  destruct (negb (truthy _)); [repeat split|].
  destruct (dict_get_default trade "contract" (VStr "")); try (repeat split; fail).
  destruct (Re.search s) as [[h ap]|]; [|repeat split].
  unfold bind, now_new_york, lift, ret.
  destruct (Dt.replace_hour _ _) as [x|x]; [|repeat split]. cbn [fst snd].
  destruct ((x <? _) && _); [|repeat split].
  destruct (Dt.add_days x 1); repeat split.
Qed.

Lemma update_trade_status_closes e w i ca :
  (db (snd (update_trade_status i "closed" ca e w)) = db w \/
   exists t, db (snd (update_trade_status i "closed" ca e w))
             = Sql.update_status_closed_at "closed" t i (db w)) /\
  trace (snd (update_trade_status i "closed" ca e w)) = trace w.
Proof.
  unfold update_trade_status. cbn [String.eqb Ascii.eqb Bool.eqb].
  destruct ca as [t|];
    unfold bind, bind_int, utcnow, est_isoformat, ret, raise, execute;
    destruct (fits_int64 i); cbn;
    try (destruct (sqlite_error e (stmts w)); cbn); split; eauto.
Qed.

Lemma check_and_close_closes e w trade i :
  dict_get trade "id" = Some (VInt i) ->
  db (snd (check_and_close trade e w)) = db w \/
  exists t, db (snd (check_and_close trade e w))
            = Sql.update_status_closed_at "closed" t i (db w).
Proof.
  intros Hi. unfold check_and_close, check_stop_trigger, bind.
  destruct (is_trade_expired_keeps e w trade) as (Hd & _ & _).
  destruct (is_trade_expired trade e w) as [[[|]|x] w1]; cbn [snd] in Hd;
    [|left; exact Hd|left; exact Hd].
  unfold subscript_id. rewrite Hi. unfold ret, print. cbn [fst snd].
  set (w2 := mkWorld _ _ _ _).
  destruct (update_trade_status_closes e w2 i None) as [H _].
  replace (db w2) with (db w) in H by (symmetry; exact Hd).
  destruct (update_trade_status i "closed" None e w2) as [[[]|x] w3]; exact H.
Qed.

Lemma kept_or_closed_id r r' : kept_or_closed r r' -> id r' = id r.
Proof. intros [->|(_ & t & ->)]; reflexivity. Qed.

Lemma kept_or_closed_trans r1 r2 r3 :
  kept_or_closed r1 r2 -> kept_or_closed r2 r3 -> kept_or_closed r1 r3.
Proof.
  intros H1 [->|(Ho & t & ->)]; [exact H1|].
  destruct H1 as [->|(_ & u & ->)].
  - right. eauto.
  - cbn in Ho. discriminate Ho.
Qed.

Lemma pending_step i ids orig cur t :
  ~ In i ids ->
  Forall2 (pending (i :: ids)) orig cur ->
  Forall2 (pending ids) orig
    (map (Sql.where_id i (Sql.set_status_closed_at "closed" t)) cur).
Proof.
  intros Hni H. induction H as [|r r' orig cur [Hk Hp] _ IH]; cbn; constructor;
    [|exact IH].
  pose proof (kept_or_closed_id _ _ Hk) as Hid.
  unfold Sql.where_id. rewrite Hid. destruct (id r =? i) eqn:E.
  - apply Z.eqb_eq in E. destruct (Hp (or_introl (eq_sym E))) as [-> Ho].
    split.
    + right. eauto.
    + intros Hin. exfalso. apply Hni. now rewrite <- E.
  - split; [exact Hk|]. intros Hin. apply Hp. now right.
Qed.

Lemma pending_weaken i ids orig cur :
  Forall2 (pending (i :: ids)) orig cur -> Forall2 (pending ids) orig cur.
Proof.
  intros H. eapply Forall2_impl; [|exact H].
  intros r r' [Hk Hp]. split; [exact Hk|]. intros Hin. apply Hp. now right.
Qed.

Lemma for_each_check_and_close ds : forall ids e w orig,
  Forall2 (fun d i => dict_get d "id" = Some (VInt i)) ds ids ->
  NoDup ids ->
  Forall2 (pending ids) orig (rows (db w)) ->
  Forall2 kept_or_closed orig
    (rows (db (snd (for_each ds check_and_close e w)))) /\
  seq (db (snd (for_each ds check_and_close e w))) = seq (db w).
Proof.
  induction ds as [|d ds IH]; intros ids e w orig Hids Hnd Hp.
  - cbn. split; [|reflexivity]. eapply Forall2_impl; [|exact Hp].
    intros r r' [Hk _]. exact Hk.
  - inversion Hids as [|? i ? ids' Hi Hrest]; subst.
    inversion Hnd as [|? ? Hni Hnd']; subst.
    cbn [for_each]. unfold bind.
    pose proof (check_and_close_closes e w d i Hi) as Hc.
    assert (Hp1 : Forall2 (pending ids') orig
                    (rows (db (snd (check_and_close d e w)))) /\
                  seq (db (snd (check_and_close d e w))) = seq (db w)).
    { destruct Hc as [->|(t & ->)].
      - split; [now apply pending_weaken with i|reflexivity].
      - split; [now apply pending_step|reflexivity]. }
    destruct (check_and_close d e w) as [[[]|x] w1]; cbn [snd] in *.
    + destruct (IH ids' e w1 orig Hrest Hnd' (proj1 Hp1)) as [H1 H2].
      split; [exact H1|]. rewrite H2. apply Hp1.
    + split; [|apply Hp1]. eapply Forall2_impl; [|exact (proj1 Hp1)].
      intros r r' [Hk _]. exact Hk.
Qed.

Lemma nodup_ids_eq l (r1 r2 : Row) :
  NoDup (map id l) -> In r1 l -> In r2 l -> id r1 = id r2 -> r1 = r2.
Proof.
  induction l as [|x l IH]; cbn; intros Hnd H1 H2 E; [contradiction|].
  inversion Hnd as [|? ? Hx Hl]; subst.
  destruct H1 as [->|H1], H2 as [->|H2]; auto.
  - exfalso. apply Hx. rewrite E. now apply in_map.
  - exfalso. apply Hx. rewrite <- E. now apply in_map.
Qed.

Lemma nodup_filter_ids (p : Row -> bool) l :
  NoDup (map id l) -> NoDup (map id (filter p l)).
Proof.
  induction l as [|x l IH]; cbn; intros H; [constructor|].
  inversion H as [|? ? Hx Hl]; subst.
  destruct (p x); [|now apply IH]. cbn. constructor; [|now apply IH].
  intros Hin. apply Hx. apply in_map_iff in Hin as (r & E & Hr).
  apply filter_In in Hr as [Hr _]. rewrite <- E. now apply in_map.
Qed.

Lemma forall2_same {A} (P : A -> A -> Prop) l :
  (forall a, In a l -> P a a) -> Forall2 P l l.
Proof.
  induction l as [|a l IH]; intros H; constructor.
  - apply H. now left.
  - apply IH. intros b Hb. apply H. now right.
Qed.

Lemma monitor_pass_closes e w :
  NoDup (map id (rows (db w))) ->
  Forall2 kept_or_closed (rows (db w)) (rows (db (snd (monitor_pass e w)))) /\
  seq (db (snd (monitor_pass e w))) = seq (db w).
Proof.
  intros Hnd. unfold monitor_pass, bind.
  destruct (sqlite_error e (stmts w)) as [msg|] eqn:He.
  - unfold fetch_open_trades, bind, execute. rewrite He. cbn.
    split; [|reflexivity]. apply forall2_same. intros; now left.
  - rewrite (fetch_open_trades_runs e w He).
    apply (for_each_check_and_close (map open_record (Sql.select_open (db w)))
             (map id (Sql.select_open (db w))) e (stepped (db w) w) (rows (db w))).
    + unfold Sql.select_open.
      induction (filter _ (rows (db w))) as [|r l IH]; cbn; constructor;
        [reflexivity|exact IH].
    + now apply nodup_filter_ids.
    + cbn [stepped db]. apply forall2_same. intros r Hr. split; [now left|].
      intros Hin. split; [reflexivity|].
      apply in_map_iff in Hin as (r2 & E & Hr2).
      apply filter_In in Hr2 as [Hr2 Ho].
      rewrite (nodup_ids_eq _ r r2 Hnd Hr Hr2 (eq_sym E)).
      now apply String.eqb_eq.
Qed.

Lemma monitor_period_db e w :
  db (snd (monitor_period e w)) = db (snd (monitor_pass e w)).
Proof.
  unfold monitor_period, bind, try_except.
  destruct (monitor_pass e w) as [[[]|x] w1]; reflexivity.
Qed.

Lemma forall2_kept_ids orig cur :
  Forall2 kept_or_closed orig cur -> map id cur = map id orig.
Proof.
  induction 1 as [|r r' orig cur Hk _ IH]; [reflexivity|]. cbn.
  now rewrite IH, (kept_or_closed_id _ _ Hk).
Qed.

Lemma forall2_kept_trans l1 : forall l2 l3,
  Forall2 kept_or_closed l1 l2 -> Forall2 kept_or_closed l2 l3 ->
  Forall2 kept_or_closed l1 l3.
Proof.
  induction l1 as [|a l1 IH]; intros l2 l3 H1 H2.
  - inversion H1; subst. inversion H2; subst. constructor.
  - inversion H1; subst. inversion H2; subst. constructor.
    + now apply kept_or_closed_trans with y.
    + now apply IH with l'.
Qed.

(** X19. The monitor only ever closes open trades. When the ids of the
    table are all different, after any number of periods, whatever the
    clock reads and whichever statements fail, the table has the same
    rows in the same order and each row is as it was, or was open and
    is now closed with a [closed_at], its other fields unchanged; the
    id counter is unchanged. *)
Theorem monitor_only_closes_open_trades :
  forall n e w,
    NoDup (map id (rows (db w))) ->
    let st' := db (snd (trade_monitor_loop n e w)) in
    Forall2 kept_or_closed (rows (db w)) (rows st') /\
    map id (rows st') = map id (rows (db w)) /\
    seq st' = seq (db w).
Proof.
  assert (Hmain : forall n e w, NoDup (map id (rows (db w))) ->
    Forall2 kept_or_closed (rows (db w)) (rows (db (snd (trade_monitor_loop n e w)))) /\
    seq (db (snd (trade_monitor_loop n e w))) = seq (db w)).
  { induction n as [|n IH]; intros e w Hnd.
    - cbn. split; [|reflexivity]. apply forall2_same. intros; now left.
    - cbn [trade_monitor_loop]. unfold bind.
      destruct (monitor_pass_closes e w Hnd) as [H1 H2].
      rewrite <- monitor_period_db in H1, H2.
      destruct (monitor_period_ok e w) as [w1 Hw1]. rewrite Hw1 in *.
      cbn [snd] in *.
      assert (Hnd1 : NoDup (map id (rows (db (slept w1))))).
      { now rewrite (forall2_kept_ids _ _ H1). }
      destruct (IH e (slept w1) Hnd1) as [H3 H4]. split.
      + now apply forall2_kept_trans with (rows (db (slept w1))).
      + now rewrite H4. }
  intros n e w Hnd st'. destruct (Hmain n e w Hnd) as [H1 H2].
  split; [exact H1|]. split; [now apply forall2_kept_ids|exact H2].
Qed.

Lemma monitor_only_closes_open_trades_witness :
  Forall2 kept_or_closed (rows two_trades)
    (rows (db (snd (trade_monitor_loop 3 locked_once_env (world_of two_trades))))).
Proof.
  refine (proj1 (monitor_only_closes_open_trades 3 locked_once_env
                   (world_of two_trades) _)).
  repeat constructor; cbn; intuition congruence.
Defined.

(** *** The delay between passes *)

Lemma sleep_total_app a b :
  sleep_total (a ++ b) = sleep_total a + sleep_total b.
Proof.
  induction a as [|[line|s] a IH]; cbn [app sleep_total]; lia.
Qed.

Lemma is_trade_expired_trace e w trade :
  trace (snd (is_trade_expired trade e w)) = trace w.
Proof. apply is_trade_expired_keeps. Qed.

Lemma check_and_close_sleeps e w trade :
  sleep_total (trace (snd (check_and_close trade e w))) = sleep_total (trace w).
Proof.
  unfold check_and_close, check_stop_trigger, bind.
  pose proof (is_trade_expired_trace e w trade) as Ht.
  destruct (is_trade_expired trade e w) as [[[|]|x] w1]; cbn [snd] in Ht;
    [|unfold ret; cbn [snd]; now rewrite Ht|cbn [snd]; now rewrite Ht].
  unfold subscript_id.
  destruct (dict_get trade "id") as [[| | i | |]|]; unfold raise; cbn [fst snd];
    try now rewrite Ht.
  unfold ret, print. cbn [fst snd].
  set (w2 := mkWorld _ _ _ _).
  pose proof (proj2 (update_trade_status_closes e w2 i None)) as Hu.
  destruct (update_trade_status i "closed" None e w2) as [[[]|x] w3];
    cbn [snd] in *; rewrite Hu; unfold w2; cbn [trace];
    rewrite sleep_total_app, Ht; cbn; lia.
Qed.

Lemma for_each_sleeps ds : forall e w,
  sleep_total (trace (snd (for_each ds check_and_close e w)))
  = sleep_total (trace w).
Proof.
  induction ds as [|d ds IH]; intros e w; [reflexivity|].
  cbn [for_each]. unfold bind.
  pose proof (check_and_close_sleeps e w d) as H.
  destruct (check_and_close d e w) as [[[]|x] w1]; cbn [snd] in *;
    [now rewrite IH|exact H].
Qed.

Lemma monitor_pass_sleeps e w :
  sleep_total (trace (snd (monitor_pass e w))) = sleep_total (trace w).
Proof.
  unfold monitor_pass, bind.
  pose proof (proj2 (fetch_open_trades_reads_only e w)) as H.
  destruct (fetch_open_trades e w) as [[ds|x] w1]; cbn [snd] in *;
    [|now rewrite H].
  now rewrite for_each_sleeps, H.
Qed.

Lemma monitor_period_sleeps e w :
  sleep_total (trace (snd (monitor_period e w))) = sleep_total (trace w) + 5.
Proof.
  unfold monitor_period, bind, try_except.
  pose proof (monitor_pass_sleeps e w) as H.
  destruct (monitor_pass e w) as [[[]|x] w1]; cbn [snd] in *;
    unfold print, sleep; cbn [fst snd trace];
    rewrite !sleep_total_app, H; cbn; lia.
Qed.

(** X20. The loop sleeps 5 after every pass, failed or not, and
    nowhere else: the first [n] periods all return, and the seconds
    slept in the output grow by 5 times [n]. *)
Theorem trade_monitor_loop_sleeps_five_per_period :
  forall n e w,
    fst (trade_monitor_loop n e w) = Ok tt /\
    sleep_total (trace (snd (trade_monitor_loop n e w)))
    = sleep_total (trace w) + 5 * Z.of_nat n.
Proof.
  induction n as [|n IH]; intros e w.
  - cbn. split; [reflexivity|lia].
  - cbn [trade_monitor_loop]. unfold bind.
    pose proof (monitor_period_sleeps e w) as Hs.
    destruct (monitor_period_ok e w) as [w1 Hw1]. rewrite Hw1 in *.
    cbn [snd] in Hs. destruct (IH e (slept w1)) as [H1 H2].
    split; [exact H1|]. rewrite H2, Hs. lia.
Qed.

(** *** A pass with a working store *)

Section FrozenClock.
Variables (e : Env) (c : Dt.datetime).
Hypothesis healthy : forall n, sqlite_error e n = None.
Hypothesis frozen : forall n, clock e n = c.

Let now := ny_wall e c.
Let stamp := Fmt.isoformat_aware (ny_wall e c) (ny_utcoffset e c).

Lemma is_trade_expired_row w r :
  evaluates now r ->
  exists w1, is_trade_expired (open_record r) e w = (Ok (due now r), w1) /\
             db w1 = db w.
Proof.
  intros Hev. unfold is_trade_expired, dict_get_default, due.
  change (dict_get (open_record r) "contract") with (Some (opt_text (contract r))).
  cbv beta iota. destruct (contract r) as [label|] eqn:Ec; cbn [opt_text truthy].
  - destruct (String.eqb_spec label "") as [->|Hne]; cbn [negb].
    + exists w. now split.
    + destruct (Re.search label) as [[h ap]|] eqn:Es; [|exists w; now split].
      destruct (Hev label h ap Ec Es) as [b Hb].
      pose proof (is_trade_expired_match e w [("contract", VStr label)] label h ap
                    eq_refl Es) as Hm.
      unfold is_trade_expired, dict_get_default in Hm. cbn [dict_get String.eqb Ascii.eqb Bool.eqb truthy] in Hm.
      apply String.eqb_neq in Hne. rewrite Hne in Hm. cbn [negb] in Hm.
      rewrite Es in Hm. rewrite Hm. unfold now_in. rewrite frozen.
      fold now. rewrite Hb. exists (tick w). now split.
  - exists w. now split.
Qed.

Lemma check_and_close_row w r :
  evaluates now r ->
  fits_int64 (id r) = true ->
  exists w1,
    check_and_close (open_record r) e w = (Ok tt, w1) /\
    db w1 = (if due now r
             then Sql.update_status_closed_at "closed" stamp (id r) (db w)
             else db w).
Proof.
  intros Hev Hfit. unfold check_and_close, check_stop_trigger, bind.
  destruct (is_trade_expired_row w r Hev) as (w1 & -> & Hd).
  destruct (due now r).
  - unfold subscript_id.
    change (dict_get (open_record r) "id") with (Some (VInt (id r))).
    unfold ret, print. cbn [fst snd].
    set (w2 := mkWorld _ _ _ _).
    rewrite (update_trade_status_runs e w2 (id r) "closed" None (healthy _) Hfit).
    cbn [String.eqb Ascii.eqb Bool.eqb]. eexists. split; [reflexivity|].
    cbn [db]. unfold eastern_now_iso. rewrite frozen. unfold w2. cbn [db].
    now rewrite Hd.
  - exists w1. split; [reflexivity|exact Hd].
Qed.

Lemma for_each_rows todo : forall w,
  Forall (evaluates now) todo ->
  Forall (fun r => fits_int64 (id r) = true) todo ->
  exists w1,
    for_each (map open_record todo) check_and_close e w = (Ok tt, w1) /\
    rows (db w1)
    = map (fun r => if existsb (fun r0 => (id r =? id r0) && due now r0) todo
                    then Sql.set_status_closed_at "closed" stamp r else r)
          (rows (db w)) /\
    seq (db w1) = seq (db w).
Proof.
  induction todo as [|r0 todo IH]; intros w Hev Hfit.
  - exists w. cbn. split; [reflexivity|]. split; [|reflexivity].
    now rewrite map_id.
  - inversion Hev as [|? ? H0 Hrest]; subst.
    inversion Hfit as [|? ? F0 Frest]; subst.
    cbn [map for_each]. unfold bind.
    destruct (check_and_close_row w r0 H0 F0) as (w1 & -> & Hd).
    destruct (IH w1 Hrest Frest) as (w2 & -> & Hr & Hs).
    exists w2. split; [reflexivity|]. rewrite Hr, Hs, Hd.
    destruct (due now r0) eqn:Ed.
    + unfold Sql.update_status_closed_at. cbn [rows seq]. split; [|reflexivity].
      rewrite map_map. apply map_ext. intros r. cbn [existsb]. rewrite Ed.
      unfold Sql.where_id. destruct (id r =? id r0); cbn [andb orb].
      * cbn [id Sql.set_status_closed_at].
        destruct (existsb _ todo); reflexivity.
      * reflexivity.
    + split; [|reflexivity]. apply map_ext. intros r. cbn [existsb].
      now rewrite Ed, andb_false_r.
Qed.

Lemma monitor_pass_rows w :
  ids_fit (db w) ->
  NoDup (map id (rows (db w))) ->
  Forall (evaluates now) (Sql.select_open (db w)) ->
  exists w1,
    monitor_pass e w = (Ok tt, w1) /\
    rows (db w1) = map (swept now stamp) (rows (db w)) /\
    seq (db w1) = seq (db w).
Proof.
  intros Hfit Hnd Hev. unfold monitor_pass, bind.
  rewrite (fetch_open_trades_runs e w (healthy _)).
  destruct (for_each_rows (Sql.select_open (db w)) (stepped (db w) w) Hev
              (ids_fit_filter _ _ Hfit))
    as (w1 & -> & Hr & Hs).
  exists w1. split; [reflexivity|]. split; [|exact Hs].
  rewrite Hr. cbn [stepped db]. apply map_ext_in. intros r Hr0.
  unfold swept, Sql.select_open.
  destruct (Sql.is_status "open" r && due now r) eqn:E.
  - apply andb_prop in E as [Eo Ed].
    assert (Hex : existsb (fun r0 => (id r =? id r0) && due now r0)
                    (filter (Sql.is_status "open") (rows (db w))) = true).
    { apply existsb_exists. exists r. split.
      - apply filter_In. now split.
      - now rewrite Z.eqb_refl, Ed. }
    now rewrite Hex.
  - destruct (existsb _ _) eqn:Hex; [|reflexivity].
    apply existsb_exists in Hex as (r0 & Hin & H0).
    apply filter_In in Hin as [Hin Ho]. apply andb_prop in H0 as [Hid Hdue].
    apply Z.eqb_eq in Hid.
    rewrite (nodup_ids_eq _ r r0 Hnd Hr0 Hin Hid) in E.
    rewrite Ho, Hdue in E. discriminate E.
Qed.
End FrozenClock.

(** X21. With a store that works and a clock that reads the same
    instant throughout, one pass over a table whose ids SQLite can
    hold and are all different, and whose open trades the expiration
    rule can evaluate, returns, and closes exactly the open trades that
    are due: each of them gets the status closed and the Eastern text
    of that instant as [closed_at]; every other row, and the order of
    the rows, is as before. *)
Theorem monitor_pass_closes_exactly_the_due_trades :
  forall e c w,
    (forall n, sqlite_error e n = None) ->
    (forall n, clock e n = c) ->
    ids_fit (db w) ->
    NoDup (map id (rows (db w))) ->
    Forall (evaluates (ny_wall e c)) (Sql.select_open (db w)) ->
    exists w1,
      monitor_pass e w = (Ok tt, w1) /\
      rows (db w1)
      = map (swept (ny_wall e c)
               (Fmt.isoformat_aware (ny_wall e c) (ny_utcoffset e c)))
            (rows (db w)) /\
      seq (db w1) = seq (db w).
Proof.
  intros e c w Hh Hf Hfit Hnd Hev. now apply monitor_pass_rows.
Qed.

Lemma monitor_pass_closes_exactly_the_due_trades_witness :
  exists w1,
    monitor_pass sample_env
      (world_of (mkStore [sample_row 1 "open" None (Some "BTC 7am");
                          sample_row 2 "open" None (Some "BTC 5am");
                          sample_row 3 "closed" (Some "2026-11-03T16:00:02-05:00")
                            (Some "BTC 7am")] 3)) = (Ok tt, w1) /\
    rows (db w1)
    = [sample_row 1 "closed" (Some "2026-11-04T07:00:00-05:00") (Some "BTC 7am");
       sample_row 2 "open" None (Some "BTC 5am");
       sample_row 3 "closed" (Some "2026-11-03T16:00:02-05:00") (Some "BTC 7am")].
Proof.
  destruct (monitor_pass_closes_exactly_the_due_trades sample_env noon_utc
              (world_of (mkStore [sample_row 1 "open" None (Some "BTC 7am");
                                  sample_row 2 "open" None (Some "BTC 5am");
                                  sample_row 3 "closed"
                                    (Some "2026-11-03T16:00:02-05:00")
                                    (Some "BTC 7am")] 3)))
    as (w1 & Hp & Hr & _).
  - intros n. reflexivity.
  - intros n. reflexivity.
  - repeat constructor.
  - repeat constructor; cbn; intuition congruence.
  - repeat constructor; intros label h ap Hc Hs;
      injection Hc as <-; vm_compute in Hs; injection Hs as <- <-;
      eexists; vm_compute; reflexivity.
  - exists w1. split; [exact Hp|]. rewrite Hr. vm_compute. reflexivity.
Defined.
